(** * 2100-AAA front end: task store, callback delivery and workflow submission

    A shallow embedding of the Next.js API routes of the repository
    (the task callback handlers, the workflow-run handler, the task
    read handler, [runAgent] and [fireCallback]) together with the
    fragment of JavaScript they rest on: JSON values, [JSON.stringify],
    [JSON.parse], truthiness, [instanceof], property assignment and the
    Prisma calls on the [Task] and [Agent] tables. *)

From Stdlib Require Import ZArith NArith Bool List String Ascii Lia.
From Stdlib Require Import Decimal DecimalString DecimalZ DecimalPos DecimalFacts.
Import ListNotations.

#[local] Set Warnings "-register-all".


Local Open Scope list_scope.
Local Open Scope string_scope.

(** ** Strings *)

Module Str.

Lemma append_assoc (a b c : string) : (a ++ b) ++ c = a ++ (b ++ c).
Proof. induction a as [|x a IH]; simpl; [reflexivity | now rewrite IH]. Qed.

Lemma append_nil_r (a : string) : a ++ "" = a.
Proof. induction a as [|x a IH]; simpl; [reflexivity | now rewrite IH]. Qed.

Lemma length_append (a b : string) :
  String.length (a ++ b) = String.length a + String.length b.
Proof. induction a as [|x a IH]; simpl; [reflexivity | now rewrite IH]. Qed.

(** The double quote, written by its code: a string literal of this file
    never holds one. *)
Definition dquote : ascii := "034"%char.
Definition backslash : ascii := "\"%char.

End Str.

(** ** JSON values

    [json] is what [JSON.parse] can return and what the handlers pass
    to [JSON.stringify].  Strings are sequences of 8-bit code units.
    Numbers are the integer-valued ones: a decimal integer literal is
    read and written exactly; literals with a fraction or an exponent
    are not part of the embedding (IEEE-754 doubles are not modelled).
    An object is the ordered list of its own enumerable properties. *)

Inductive json : Type :=
| JNull
| JBool (b : bool)
| JNum (n : Z)
| JStr (s : string)
| JArr (xs : list json)
| JObj (fields : list (string * json)).

Module Json.

(** Induction over nested values. *)
Section JsonInd.
Variable P : json -> Prop.
Hypothesis Hnull : P JNull.
Hypothesis Hbool : forall b, P (JBool b).
Hypothesis Hnum : forall n, P (JNum n).
Hypothesis Hstr : forall s, P (JStr s).
Hypothesis Harr : forall xs, Forall P xs -> P (JArr xs).
Hypothesis Hobj : forall fs, Forall (fun kv => P (snd kv)) fs -> P (JObj fs).

Fixpoint json_rect' (j : json) : P j :=
  match j with
  | JNull => Hnull
  | JBool b => Hbool b
  | JNum n => Hnum n
  | JStr s => Hstr s
  | JArr xs =>
      Harr xs ((fix all (l : list json) : Forall P l :=
                  match l with
                  | [] => Forall_nil _
                  | x :: l' => Forall_cons x (json_rect' x) (all l')
                  end) xs)
  | JObj fs =>
      Hobj fs ((fix all (l : list (string * json)) : Forall (fun kv => P (snd kv)) l :=
                  match l with
                  | [] => Forall_nil _
                  | kv :: l' => Forall_cons kv (json_rect' (snd kv)) (all l')
                  end) fs)
  end.
End JsonInd.

(** *** Objects as property lists *)

Fixpoint lookup (k : string) (o : list (string * json)) : option json :=
  match o with
  | [] => None
  | (k', v) :: o' => if String.eqb k k' then Some v else lookup k o'
  end.

(** [o[k] = v] on own data properties: an existing key keeps its place,
    a new key goes last. *)
Fixpoint obj_set (k : string) (v : json) (o : list (string * json))
  : list (string * json) :=
  match o with
  | [] => [(k, v)]
  | (k', v') :: o' =>
      if String.eqb k k' then (k', v) :: o' else (k', v') :: obj_set k v o'
  end.

Definition keys (o : list (string * json)) : list string := map fst o.

(** A well-formed value: no object has two properties of one name. *)
Fixpoint wf (j : json) : Prop :=
  match j with
  | JArr xs => (fix all (l : list json) : Prop :=
                  match l with [] => True | x :: l' => wf x /\ all l' end) xs
  | JObj fs => NoDup (map fst fs) /\
               (fix all (l : list (string * json)) : Prop :=
                  match l with [] => True | kv :: l' => wf (snd kv) /\ all l' end) fs
  | _ => True
  end.




(** *** JSON.stringify

    [emit j k] is the text of [j] followed by [k]; [JSON.stringify]
    (called without an indent argument) is [emit j ""].  The quoting
    is QuoteJSONString: the quote and the backslash are escaped, the
    control characters are written with their short escapes or as
    [\u00XX], every other code unit is copied. *)

Definition hex_digit (n : N) : ascii :=
  if (n <? 10)%N then ascii_of_N (48 + n) else ascii_of_N (87 + n).

Definition escape_char (c : ascii) : string :=
  if (c =? Str.dquote)%char then String Str.backslash (String Str.dquote "")
  else if (c =? Str.backslash)%char then String Str.backslash (String Str.backslash "")
  else if (c =? "008")%char then "\b"
  else if (c =? "012")%char then "\f"
  else if (c =? "010")%char then "\n"
  else if (c =? "013")%char then "\r"
  else if (c =? "009")%char then "\t"
  else if (N_of_ascii c <? 32)%N then
    "\u00" ++ String (hex_digit (N_of_ascii c / 16))
                (String (hex_digit (N_of_ascii c mod 16)) "")
  else String c "".

Fixpoint emit_chars (s : string) (k : string) : string :=
  match s with
  | EmptyString => String Str.dquote k
  | String c r => escape_char c ++ emit_chars r k
  end.

Definition emit_string (s : string) (k : string) : string :=
  String Str.dquote (emit_chars s k).

Definition string_of_Z (n : Z) : string := NilEmpty.string_of_int (Z.to_int n).

Fixpoint emit (j : json) (k : string) : string :=
  match j with
  | JNull => "null" ++ k
  | JBool true => "true" ++ k
  | JBool false => "false" ++ k
  | JNum n => string_of_Z n ++ k
  | JStr s => emit_string s k
  | JArr [] => "[]" ++ k
  | JArr (x :: xs) =>
      String "[" (emit x
        ((fix tail (l : list json) : string :=
            match l with
            | [] => String "]" k
            | y :: l' => String "," (emit y (tail l'))
            end) xs))
  | JObj [] => "{}" ++ k
  | JObj ((key, v) :: fs) =>
      String "{" (emit_string key (String ":" (emit v
        ((fix tail (l : list (string * json)) : string :=
            match l with
            | [] => String "}" k
            | (key', v') :: l' =>
                String "," (emit_string key' (String ":" (emit v' (tail l'))))
            end) fs))))
  end.

Definition stringify (j : json) : string := emit j "".

(** The two inner loops of [emit], by name. *)
Fixpoint emit_elements (l : list json) (k : string) : string :=
  match l with
  | [] => String "]" k
  | y :: l' => String "," (emit y (emit_elements l' k))
  end.

Fixpoint emit_members (l : list (string * json)) (k : string) : string :=
  match l with
  | [] => String "}" k
  | (key, v) :: l' =>
      String "," (emit_string key (String ":" (emit v (emit_members l' k))))
  end.

(** *** JSON.parse *)

Definition is_ws (c : ascii) : bool :=
  (c =? " ")%char || (c =? "009")%char || (c =? "010")%char || (c =? "013")%char.

Fixpoint skip_ws (s : string) : string :=
  match s with
  | String c r => if is_ws c then skip_ws r else s
  | EmptyString => EmptyString
  end.

Fixpoint strip (p s : string) : option string :=
  match p, s with
  | EmptyString, _ => Some s
  | String a p', String b s' => if (a =? b)%char then strip p' s' else None
  | String _ _, EmptyString => None
  end.

Definition simple_escape (e : ascii) : option ascii :=
  if (e =? Str.dquote)%char then Some Str.dquote
  else if (e =? Str.backslash)%char then Some Str.backslash
  else if (e =? "/")%char then Some "/"%char
  else if (e =? "b")%char then Some "008"%char
  else if (e =? "f")%char then Some "012"%char
  else if (e =? "n")%char then Some "010"%char
  else if (e =? "r")%char then Some "013"%char
  else if (e =? "t")%char then Some "009"%char
  else None.

Definition hex_value (c : ascii) : option N :=
  let n := N_of_ascii c in
  if (48 <=? n)%N && (n <=? 57)%N then Some (n - 48)%N
  else if (97 <=? n)%N && (n <=? 102)%N then Some (n - 87)%N
  else if (65 <=? n)%N && (n <=? 70)%N then Some (n - 55)%N
  else None.

(** [\uXXXX]: the code unit, when it lies in the 8-bit alphabet. *)
Definition code_unit (h1 h2 h3 h4 : ascii) : option ascii :=
  match hex_value h1, hex_value h2, hex_value h3, hex_value h4 with
  | Some a, Some b, Some c, Some d =>
      let n := (((a * 16 + b) * 16 + c) * 16 + d)%N in
      if (n <? 256)%N then Some (ascii_of_N n) else None
  | _, _, _, _ => None
  end.

Definition prepend (c : ascii) (r : option (string * string))
  : option (string * string) :=
  match r with
  | Some (s, rest) => Some (String c s, rest)
  | None => None
  end.

(** The characters of a string literal, after its opening quote. *)
Fixpoint parse_chars (s : string) : option (string * string) :=
  match s with
  | EmptyString => None
  | String c r =>
      if (c =? Str.dquote)%char then Some (EmptyString, r)
      else if (c =? Str.backslash)%char then
        match r with
        | EmptyString => None
        | String e r1 =>
            match simple_escape e with
            | Some c' => prepend c' (parse_chars r1)
            | None =>
                if (e =? "u")%char then
                  match r1 with
                  | String h1 (String h2 (String h3 (String h4 r2))) =>
                      match code_unit h1 h2 h3 h4 with
                      | Some c' => prepend c' (parse_chars r2)
                      | None => None
                      end
                  | _ => None
                  end
                else None
            end
        end
      else if (N_of_ascii c <? 32)%N then None
      else prepend c (parse_chars r)
  end.

Definition digit_of (c : ascii) : option (uint -> uint) :=
  if (c =? "0")%char then Some D0 else if (c =? "1")%char then Some D1
  else if (c =? "2")%char then Some D2 else if (c =? "3")%char then Some D3
  else if (c =? "4")%char then Some D4 else if (c =? "5")%char then Some D5
  else if (c =? "6")%char then Some D6 else if (c =? "7")%char then Some D7
  else if (c =? "8")%char then Some D8 else if (c =? "9")%char then Some D9
  else None.

Fixpoint read_digits (s : string) : uint * string :=
  match s with
  | String c r =>
      match digit_of c with
      | Some d => let (ds, r') := read_digits r in (d ds, r')
      | None => (Nil, s)
      end
  | EmptyString => (Nil, EmptyString)
  end.

(** A fraction or an exponent follows: the literal is not an integer one. *)
Definition continues_number (s : string) : bool :=
  match s with
  | String c _ => (c =? ".")%char || (c =? "e")%char || (c =? "E")%char
  | EmptyString => false
  end.

(** Digits with no leading zero ([unorm] strips them), at least one. *)
Definition parse_unsigned (s : string) : option (uint * string) :=
  let (ds, r) := read_digits s in
  match ds with
  | Nil => None
  | _ => if uint_beq (unorm ds) ds && negb (continues_number r)
         then Some (ds, r) else None
  end.

Definition parse_number (s : string) : option (Z * string) :=
  match s with
  | String c r =>
      if (c =? "-")%char then
        match parse_unsigned r with
        | Some (ds, r') => Some (Z.of_int (Neg ds), r')
        | None => None
        end
      else
        match parse_unsigned s with
        | Some (ds, r') => Some (Z.of_int (Pos ds), r')
        | None => None
        end
  | EmptyString => None
  end.

(** The object a member list denotes: a repeated name keeps its first
    place and takes its last value. *)
Definition mk_object (members : list (string * json)) : list (string * json) :=
  fold_left (fun o kv => obj_set (fst kv) (snd kv) o) members [].

Fixpoint parse_value (fuel : nat) (s : string) {struct fuel}
  : option (json * string) :=
  match fuel with
  | O => None
  | S f =>
      match skip_ws s with
      | EmptyString => None
      | String c r as s' =>
          if (c =? "n")%char then option_map (pair JNull) (strip "ull" r)
          else if (c =? "t")%char then option_map (pair (JBool true)) (strip "rue" r)
          else if (c =? "f")%char then option_map (pair (JBool false)) (strip "alse" r)
          else if (c =? Str.dquote)%char then
            match parse_chars r with
            | Some (str, r') => Some (JStr str, r')
            | None => None
            end
          else if (c =? "[")%char then
            match skip_ws r with
            | String c' r' as r0 =>
                if (c' =? "]")%char then Some (JArr [], r')
                else match parse_elements f r0 with
                     | Some (xs, r'') => Some (JArr xs, r'')
                     | None => None
                     end
            | EmptyString => None
            end
          else if (c =? "{")%char then
            match skip_ws r with
            | String c' r' as r0 =>
                if (c' =? "}")%char then Some (JObj [], r')
                else match parse_members f r0 with
                     | Some (fs, r'') => Some (JObj (mk_object fs), r'')
                     | None => None
                     end
            | EmptyString => None
            end
          else
            match parse_number s' with
            | Some (n, r') => Some (JNum n, r')
            | None => None
            end
      end
  end
with parse_elements (fuel : nat) (s : string) {struct fuel}
  : option (list json * string) :=
  match fuel with
  | O => None
  | S f =>
      match parse_value f s with
      | Some (x, r) =>
          match skip_ws r with
          | String c r' =>
              if (c =? ",")%char then
                match parse_elements f r' with
                | Some (xs, r'') => Some (x :: xs, r'')
                | None => None
                end
              else if (c =? "]")%char then Some ([x], r')
              else None
          | EmptyString => None
          end
      | None => None
      end
  end
with parse_members (fuel : nat) (s : string) {struct fuel}
  : option (list (string * json) * string) :=
  match fuel with
  | O => None
  | S f =>
      match skip_ws s with
      | String q r =>
          if (q =? Str.dquote)%char then
            match parse_chars r with
            | Some (key, r1) =>
                match skip_ws r1 with
                | String c r2 =>
                    if (c =? ":")%char then
                      match parse_value f r2 with
                      | Some (v, r3) =>
                          match skip_ws r3 with
                          | String c' r4 =>
                              if (c' =? ",")%char then
                                match parse_members f r4 with
                                | Some (fs, r5) => Some ((key, v) :: fs, r5)
                                | None => None
                                end
                              else if (c' =? "}")%char then Some ([(key, v)], r4)
                              else None
                          | EmptyString => None
                          end
                      | None => None
                      end
                    else None
                | EmptyString => None
                end
            | None => None
            end
          else None
      | EmptyString => None
      end
  end.

(** [JSON.parse text]: one value, then nothing but white space.
    [None] stands for the [SyntaxError] it throws.  The recursion is
    bounded by the length of the text, which no nesting exceeds. *)
Definition parse (text : string) : option json :=
  match parse_value (S (String.length text)) text with
  | Some (v, rest) =>
      match skip_ws rest with
      | EmptyString => Some v
      | String _ _ => None
      end
  | None => None
  end.

(** *** Reading back what [stringify] wrote *)

Lemma emit_arr_cons x xs k :
  emit (JArr (x :: xs)) k = String "[" (emit x (emit_elements xs k)).
Proof.
  simpl. do 2 f_equal.
  induction xs as [|y ys IH]; simpl; [reflexivity | now rewrite IH].
Qed.

Lemma emit_obj_cons key v fs k :
  emit (JObj ((key, v) :: fs)) k =
  String "{" (emit_string key (String ":" (emit v (emit_members fs k)))).
Proof.
  simpl. do 4 f_equal.
  induction fs as [|[key' v'] l IH]; simpl; [reflexivity | now rewrite IH].
Qed.

Lemma parse_chars_escape c t :
  parse_chars (escape_char c ++ t) = prepend c (parse_chars t).
Proof.
  destruct c as [[] [] [] [] [] [] [] []]; reflexivity.
Qed.

Lemma parse_chars_emit s k : parse_chars (emit_chars s k) = Some (s, k).
Proof.
  induction s as [|c s IH]; simpl.
  - reflexivity.
  - rewrite parse_chars_escape, IH. reflexivity.
Qed.

(** What may follow an integer literal for it to be read whole. *)
Definition ends_number (k : string) : bool :=
  match k with
  | EmptyString => true
  | String c _ =>
      match digit_of c with
      | Some _ => false
      | None => negb ((c =? ".")%char || (c =? "e")%char || (c =? "E")%char)
      end
  end.

Lemma read_digits_stop k : ends_number k = true -> read_digits k = (Nil, k).
Proof.
  destruct k as [|c k]; simpl; [reflexivity|].
  destruct (digit_of c); [discriminate | reflexivity].
Qed.

Lemma read_digits_emit d k :
  ends_number k = true ->
  read_digits (NilEmpty.string_of_uint d ++ k) = (d, k).
Proof.
  intros Hk. induction d; simpl; try (rewrite IHd; reflexivity).
  now apply read_digits_stop.
Qed.

Lemma ends_number_continues k : ends_number k = true -> continues_number k = false.
Proof.
  destruct k as [|c k]; simpl; [reflexivity|].
  destruct (digit_of c); [discriminate|].
  now intros ->%negb_true_iff.
Qed.

Lemma parse_unsigned_emit d k :
  d <> Nil -> unorm d = d -> ends_number k = true ->
  parse_unsigned (NilEmpty.string_of_uint d ++ k) = Some (d, k).
Proof.
  intros Hd Hn Hk. unfold parse_unsigned.
  rewrite (read_digits_emit d k Hk), Hn.
  rewrite (internal_uint_dec_lb d d eq_refl), (ends_number_continues k Hk).
  destruct d; [congruence | reflexivity ..].
Qed.

Lemma unorm_to_uint p : unorm (Pos.to_uint p) = Pos.to_uint p.
Proof.
  rewrite <- (DecimalPos.Unsigned.to_of (Pos.to_uint p)).
  now rewrite DecimalPos.Unsigned.of_to.
Qed.

(** The first character of a literal decides which value is read. *)
Definition value_start (c : ascii) : bool :=
  (c =? "n")%char || (c =? "t")%char || (c =? "f")%char ||
  (c =? Str.dquote)%char || (c =? "[")%char || (c =? "{")%char ||
  (c =? "-")%char ||
  match digit_of c with Some _ => true | None => false end.

Definition number_start (c : ascii) : bool :=
  (c =? "-")%char || match digit_of c with Some _ => true | None => false end.

Lemma uint_head d k :
  d <> Nil ->
  exists c r, NilEmpty.string_of_uint d ++ k = String c r /\ digit_of c <> None
              /\ (c =? "-")%char = false.
Proof.
  intros Hd. destruct d; [congruence | ..]; simpl;
    eexists; eexists; (split; [reflexivity | split; [discriminate | reflexivity]]).
Qed.

Lemma number_head n k :
  exists c r, string_of_Z n ++ k = String c r /\ number_start c = true.
Proof.
  unfold string_of_Z, number_start. destruct n as [|p|p]; simpl.
  - eexists; eexists; split; reflexivity.
  - destruct (uint_head (Pos.to_uint p) k (DecimalPos.Unsigned.to_uint_nonnil p))
      as (c & r & -> & Hc & _).
    exists c, r. split; [reflexivity|].
    destruct (digit_of c); [apply orb_true_r | congruence].
  - eexists; eexists; split; reflexivity.
Qed.

Lemma number_start_dispatch c :
  number_start c = true ->
  is_ws c = false /\ (c =? "n")%char = false /\ (c =? "t")%char = false /\
  (c =? "f")%char = false /\ (c =? Str.dquote)%char = false /\
  (c =? "[")%char = false /\ (c =? "{")%char = false.
Proof.
  destruct c as [[] [] [] [] [] [] [] []]; intros H;
    first [discriminate H | repeat split].
Qed.

Lemma value_start_spec c :
  value_start c = true ->
  is_ws c = false /\ (c =? "]")%char = false /\ (c =? "}")%char = false.
Proof.
  destruct c as [[] [] [] [] [] [] [] []]; intros H;
    first [discriminate H | repeat split].
Qed.

Lemma parse_number_emit n k :
  ends_number k = true ->
  parse_number (string_of_Z n ++ k) = Some (n, k).
Proof.
  intros Hk. unfold string_of_Z.
  rewrite <- (DecimalZ.of_to n) at 2.
  destruct n as [|p|p]; simpl Z.to_int; unfold NilEmpty.string_of_int.
  - simpl. unfold parse_unsigned. simpl.
    rewrite (read_digits_stop k Hk). simpl.
    now rewrite (ends_number_continues k Hk).
  - destruct (uint_head (Pos.to_uint p) k (DecimalPos.Unsigned.to_uint_nonnil p))
      as (c & r & E & _ & Hm).
    pose proof (parse_unsigned_emit (Pos.to_uint p) k
                  (DecimalPos.Unsigned.to_uint_nonnil p) (unorm_to_uint p) Hk) as HP.
    rewrite E in *. unfold parse_number. rewrite Hm, HP. reflexivity.
  - simpl.
    now rewrite (parse_unsigned_emit (Pos.to_uint p) k
                   (DecimalPos.Unsigned.to_uint_nonnil p) (unorm_to_uint p) Hk).
Qed.

Lemma emit_head v k :
  exists c r, emit v k = String c r /\ value_start c = true.
Proof.
  destruct v as [|[]|n|s|[|x xs]|[|[key v] fs]];
    try (eexists; eexists; split; reflexivity).
  destruct (number_head n k) as (c & r & E & Hc).
  exists c, r. split; [exact E|].
  unfold value_start. unfold number_start in Hc.
  apply orb_true_iff in Hc as [-> | Hc]; [now rewrite !orb_true_r|].
  rewrite Hc. apply orb_true_r.
Qed.

Lemma ends_number_elements xs k : ends_number (emit_elements xs k) = true.
Proof. destruct xs; reflexivity. Qed.

Lemma ends_number_members fs k : ends_number (emit_members fs k) = true.
Proof. destruct fs as [|[key v] fs]; reflexivity. Qed.

(** The recursion budget a value needs: one unit per value and one per
    element or member. *)
Fixpoint weight (j : json) : nat :=
  match j with
  | JArr xs => S ((fix sum (l : list json) : nat :=
                     match l with [] => 0 | x :: l' => S (weight x) + sum l' end) xs)
  | JObj fs => S ((fix sum (l : list (string * json)) : nat :=
                     match l with [] => 0 | kv :: l' => S (weight (snd kv)) + sum l' end) fs)
  | _ => 1
  end.

Fixpoint weight_all (l : list json) : nat :=
  match l with [] => 0 | x :: l' => S (weight x) + weight_all l' end.

Fixpoint weight_fields (l : list (string * json)) : nat :=
  match l with [] => 0 | kv :: l' => S (weight (snd kv)) + weight_fields l' end.

Lemma weight_arr xs : weight (JArr xs) = S (weight_all xs).
Proof. reflexivity. Qed.

Lemma weight_obj fs : weight (JObj fs) = S (weight_fields fs).
Proof. reflexivity. Qed.

(** What [JSON.parse] makes of a value's text: the value itself, each
    object rebuilt from its members in order. *)
Fixpoint norm (j : json) : json :=
  match j with
  | JArr xs => JArr ((fix go (l : list json) : list json :=
                        match l with [] => [] | x :: l' => norm x :: go l' end) xs)
  | JObj fs => JObj (mk_object
                 ((fix go (l : list (string * json)) : list (string * json) :=
                     match l with
                     | [] => []
                     | kv :: l' => (fst kv, norm (snd kv)) :: go l'
                     end) fs))
  | _ => j
  end.

Definition norm_fields (fs : list (string * json)) : list (string * json) :=
  map (fun kv => (fst kv, norm (snd kv))) fs.

Lemma norm_arr xs : norm (JArr xs) = JArr (map norm xs).
Proof. reflexivity. Qed.

Lemma norm_obj fs : norm (JObj fs) = JObj (mk_object (norm_fields fs)).
Proof. reflexivity. Qed.

(** [parse_value] on the text of [v], whatever follows it. *)
Definition reads_back (v : json) : Prop :=
  forall f k, weight v <= f -> ends_number k = true ->
              parse_value f (emit v k) = Some (norm v, k).

Lemma parse_elements_emit xs :
  Forall reads_back xs ->
  forall x f k,
    reads_back x -> S (weight x) + weight_all xs <= f ->
    parse_elements f (emit x (emit_elements xs k)) = Some (map norm (x :: xs), k).
Proof.
  induction 1 as [|y ys Hy Hys IH]; intros x f k Hx Hf;
    (destruct f as [|f]; [simpl in Hf; lia|]); simpl parse_elements.
  - rewrite (Hx f _); [reflexivity | simpl in Hf; lia | reflexivity].
  - rewrite (Hx f _); [| simpl in Hf; lia | reflexivity].
    cbn [emit_elements skip_ws is_ws Ascii.eqb Bool.eqb orb].
    rewrite (IH y f k Hy); [reflexivity | simpl in Hf; lia].
Qed.

Lemma parse_members_emit fs :
  Forall (fun kv => reads_back (snd kv)) fs ->
  forall key v f k,
    reads_back v -> S (weight v) + weight_fields fs <= f ->
    parse_members f (emit_string key (String ":" (emit v (emit_members fs k))))
    = Some (norm_fields ((key, v) :: fs), k).
Proof.
  induction 1 as [|[key' v'] l Hy Hys IH]; intros key v f k Hv Hf;
    (destruct f as [|f]; [simpl in Hf; lia|]);
    unfold emit_string; cbn [parse_members skip_ws is_ws Str.dquote Ascii.eqb Bool.eqb orb];
    rewrite parse_chars_emit;
    cbn [skip_ws is_ws Ascii.eqb Bool.eqb orb].
  - rewrite (Hv f _); [reflexivity | simpl in Hf; lia | reflexivity].
  - rewrite (Hv f _); [| simpl in Hf; lia | reflexivity].
    cbn [emit_members skip_ws is_ws Ascii.eqb Bool.eqb orb].
    fold (emit_string key' (String ":" (emit v' (emit_members l k)))).
    rewrite (IH key' v' f k Hy); [reflexivity | simpl in Hf, Hy |- *; lia].
Qed.



Lemma parse_value_emit v : reads_back v.
Proof.
  induction v as [| b | n | s | xs IH | fs IH] using json_rect';
    intros f k Hf Hk; (destruct f as [|f]; [simpl in Hf; lia|]).
  - reflexivity.
  - destruct b; reflexivity.
  - change (emit (JNum n) k) with (string_of_Z n ++ k).
    destruct (number_head n k) as (c & r & E & Hc).
    destruct (number_start_dispatch c Hc) as (H0 & H1 & H2 & H3 & H4 & H5 & H6).
    rewrite E. cbn [parse_value skip_ws]. rewrite H0, H1, H2, H3, H4, H5, H6.
    rewrite <- E, (parse_number_emit n k Hk). reflexivity.
  - unfold emit, emit_string.
    cbn [parse_value skip_ws is_ws Str.dquote Ascii.eqb Bool.eqb orb].
    now rewrite parse_chars_emit.
  - destruct xs as [|x xs]; [reflexivity|].
    rewrite emit_arr_cons, norm_arr. rewrite weight_arr in Hf.
    cbn [parse_value skip_ws is_ws Ascii.eqb Bool.eqb orb].
    destruct (emit_head x (emit_elements xs k)) as (c & r & E & Hc).
    destruct (value_start_spec c Hc) as (H0 & H1 & _).
    inversion IH as [|? ? Hx Hxs]; subst.
    pose proof (parse_elements_emit xs Hxs x f k Hx) as HP.
    rewrite E in *. cbn [skip_ws]. rewrite H0, H1, HP; [reflexivity|].
    simpl in Hf. lia.
  - destruct fs as [|[key v] fs]; [reflexivity|].
    rewrite emit_obj_cons, norm_obj. rewrite weight_obj in Hf.
    inversion IH as [|? ? Hv Hfs]; subst. simpl in Hv.
    pose proof (parse_members_emit fs Hfs key v f k Hv) as HP.
    unfold emit_string in *.
    cbn [parse_value skip_ws is_ws Str.dquote Ascii.eqb Bool.eqb orb].
    rewrite HP; [reflexivity | simpl in Hf |- *; lia].
Qed.


(** The text of a value is at least as long as its budget, so the
    bound [parse] starts from is enough. *)
Lemma length_emit_chars s k : S (String.length k) <= String.length (emit_chars s k).
Proof.
  induction s as [|c s IH]; simpl; [lia|].
  rewrite Str.length_append. lia.
Qed.

Lemma length_string_of_Z n : 1 <= String.length (string_of_Z n).
Proof.
  destruct (number_head n "") as (c & r & E & _).
  rewrite Str.append_nil_r in E. rewrite E. simpl. lia.
Qed.

Definition fits (v : json) : Prop :=
  forall k, weight v + String.length k <= String.length (emit v k).

Lemma length_emit_elements xs k :
  Forall fits xs ->
  weight_all xs + S (String.length k) <= String.length (emit_elements xs k).
Proof.
  induction 1 as [|x xs Hx _ IH]; simpl; [lia|].
  specialize (Hx (emit_elements xs k)). lia.
Qed.

Lemma length_emit_members fs k :
  Forall (fun kv => fits (snd kv)) fs ->
  weight_fields fs + S (String.length k) <= String.length (emit_members fs k).
Proof.
  induction 1 as [|[key v] fs Hx _ IH]; simpl; [lia|].
  specialize (Hx (emit_members fs k)). simpl in Hx.
  pose proof (length_emit_chars key (String ":" (emit v (emit_members fs k)))) as Hc.
  simpl in Hc. lia.
Qed.

Lemma weight_le_length v : fits v.
Proof.
  induction v as [| b | n | s | xs IH | fs IH] using json_rect'; intros k.
  - simpl. lia.
  - destruct b; simpl; lia.
  - change (emit (JNum n) k) with (string_of_Z n ++ k).
    rewrite Str.length_append. pose proof (length_string_of_Z n). simpl. lia.
  - simpl. pose proof (length_emit_chars s k). lia.
  - destruct xs as [|x xs]; [simpl; lia|].
    rewrite emit_arr_cons, weight_arr. inversion IH as [|? ? Hx Hxs]; subst.
    pose proof (length_emit_elements xs k Hxs).
    specialize (Hx (emit_elements xs k)). simpl. lia.
  - destruct fs as [|[key v] fs]; [simpl; lia|].
    rewrite emit_obj_cons, weight_obj. inversion IH as [|? ? Hx Hxs]; subst.
    pose proof (length_emit_members fs k Hxs).
    specialize (Hx (emit_members fs k)). simpl in Hx.
    pose proof (length_emit_chars key (String ":" (emit v (emit_members fs k)))) as Hc.
    simpl in *. lia.
Qed.

(** [JSON.parse (JSON.stringify v)] never throws, and is [v] itself
    for a well-formed [v]. *)
Lemma parse_stringify_norm v : parse (stringify v) = Some (norm v).
Proof.
  unfold parse, stringify.
  rewrite (parse_value_emit v); [reflexivity | | reflexivity].
  pose proof (weight_le_length v ""). simpl in *. lia.
Qed.


End Json.

(** ** JavaScript values around JSON

    Besides JSON values the handlers meet [undefined] (a field the
    request does not carry), instances of [Error] (what [fetch],
    [JSON.parse] and Prisma throw, what [runAgent] and [fireCallback]
    return on failure) and, for [instanceof String], the wrapper
    objects [new String(s)]. *)

Record js_error := mkError {
  err_name : string;
  err_message : string;
  err_info : option json;      (* [error.info], when assigned *)
  err_status : option Z        (* [error.status], when assigned *)
}.

Inductive value : Type :=
| VUndefined
| VJson (j : json)
| VError (e : js_error)
| VStringObject (s : string).

Module Js.

Definition null : value := VJson JNull.
Definition str (s : string) : value := VJson (JStr s).
Definition boolean (b : bool) : value := VJson (JBool b).

Definition error (name message : string) : value :=
  VError (mkError name message None None).

(** ToBoolean. *)
Definition truthy (v : value) : bool :=
  match v with
  | VUndefined => false
  | VJson JNull => false
  | VJson (JBool b) => b
  | VJson (JNum n) => negb (n =? 0)%Z
  | VJson (JStr s) => negb (s =? "")
  | VJson (JArr _) | VJson (JObj _) => true
  | VError _ | VStringObject _ => true
  end.

(** [!v]: always a primitive boolean. *)
Definition not (v : value) : value := boolean (negb (truthy v)).

(** [v instanceof String]: the prototype chain of a primitive is never
    walked, so only wrapper objects qualify. *)
Definition instanceof_String (v : value) : bool :=
  match v with
  | VStringObject _ => true
  | _ => false
  end.

Definition instanceof_Error (v : value) : bool :=
  match v with
  | VError _ => true
  | _ => false
  end.

(** [JSON.stringify v]: [undefined] for [undefined]; an [Error] shows
    its own enumerable properties, a wrapper its string. *)
Definition error_fields (e : js_error) : list (string * json) :=
  (match err_info e with Some i => [("info", i)] | None => [] end ++
   match err_status e with Some n => [("status", JNum n)] | None => [] end)%list.

Definition JSON_stringify (v : value) : value :=
  match v with
  | VUndefined => VUndefined
  | VJson j => str (Json.stringify j)
  | VError e => str (Json.stringify (JObj (error_fields e)))
  | VStringObject s => str (Json.stringify (JStr s))
  end.

End Js.

(** ** Effects

    A handler runs against a [world]: the two tables, and what the
    environment will answer (whether each Prisma call finds the
    database, what each [fetch] meets, the id Prisma would generate).
    It returns or throws, and leaves the events it caused, oldest
    first. *)

Module Task.
Record t := mk {
  id : string;
  agentId : option string;
  logs : string;               (* JSON string *)
  output : string;             (* JSON string *)
  status : option string;
  callback : option string
}.
End Task.

Module Agent.
Record t := mk {
  id : string;
  name : string;
  description : option string;
  variables : string;          (* JSON string *)
  workflow : string            (* JSON string *)
}.
End Agent.

Inductive fetch_outcome : Type :=
| NetworkFailure (message : string)
| HttpResponse (status : Z) (body : string).

(** The body handed to [res.status(code).json(...)]. *)
Inductive reply : Type :=
| Body (v : value)
| Message (v : value).          (* [{ message: v }] *)

Inductive event : Type :=
| Query (model operation : string)
| Snooze (ms : Z)
| ConsoleLog (v : value)
| Fetch (url method body : string)
| Respond (code : Z) (r : reply).

Record world := mkWorld {
  tasks : list Task.t;
  agents : list Agent.t;
  faults : list bool;
  replies : list fetch_outcome;
  cuid : string
}.

Inductive outcome (A : Type) : Type :=
| Return (a : A)
| Throw (e : value).
Arguments Return {A} a.
Arguments Throw {A} e.

Record result (A : Type) := mkResult {
  out : outcome A;
  final : world;
  events : list event
}.
Arguments mkResult {A} out final events.
Arguments out {A} r.
Arguments final {A} r.
Arguments events {A} r.

Definition M (A : Type) : Type := world -> result A.

Module Eff.

Definition ret {A} (a : A) : M A := fun w => mkResult (Return a) w [].

Definition throw {A} (e : value) : M A := fun w => mkResult (Throw e) w [].

Definition bind {A B} (m : M A) (k : A -> M B) : M B :=
  fun w =>
    let r := m w in
    match out r with
    | Return a =>
        let r' := k a (final r) in
        mkResult (out r') (final r') (events r ++ events r')%list
    | Throw e => mkResult (Throw e) (final r) (events r)
    end.

(** [try { m } catch (error) { h error }]. *)
Definition try_catch {A} (m : M A) (h : value -> M A) : M A :=
  fun w =>
    let r := m w in
    match out r with
    | Return a => r
    | Throw e =>
        let r' := h e (final r) in
        mkResult (out r') (final r') (events r ++ events r')%list
    end.

Definition emit (e : event) : M unit := fun w => mkResult (Return tt) w [e].

Definition lift {A} (o : outcome A) : M A := fun w => mkResult o w [].

(** Reading one component of the world. *)
Definition gets {A} (f : world -> A) : M A := fun w => mkResult (Return (f w)) w [].

End Eff.

Declare Scope eff_scope.
Delimit Scope eff_scope with eff.
Notation "x <- m ;; k" := (Eff.bind m (fun x => k))
  (at level 61, m at next level, right associativity) : eff_scope.
Notation "m ;; k" := (Eff.bind m (fun _ => k))
  (at level 61, right associativity) : eff_scope.
Notation "' pat <- m ;; k" := (Eff.bind m (fun x => let 'pat := x in k))
  (at level 61, pat pattern, m at next level, right associativity) : eff_scope.
Local Open Scope eff_scope.

(** ** Runtime services *)

Module Rt.

(** [await snooze(ms)]. *)
Definition snooze (ms : Z) : M unit := Eff.emit (Snooze ms).

Definition console_log (v : value) : M unit := Eff.emit (ConsoleLog v).

(** [res.status(code).json(body)]. *)
Definition respond (code : Z) (r : reply) : M unit := Eff.emit (Respond code r).

(** [JSON.parse text] on a string column. *)
Definition JSON_parse (text : string) : M json :=
  match Json.parse text with
  | Some j => Eff.ret j
  | None => Eff.throw (Js.error "SyntaxError" "Unexpected token in JSON")
  end.

(** [await fetch(url, { method, body })]: the next answer of the
    environment, none left standing for an unreachable host.  A
    network failure rejects with a [TypeError]; any HTTP response
    resolves to its status and body text. *)
Definition fetch (url method body : string) : M (Z * string) :=
  fun w =>
    match replies w with
    | HttpResponse status text :: rs =>
        mkResult (Return (status, text))
          (mkWorld (tasks w) (agents w) (faults w) rs (cuid w))
          [Fetch url method body]
    | NetworkFailure message :: rs =>
        mkResult (Throw (Js.error "TypeError" message))
          (mkWorld (tasks w) (agents w) (faults w) rs (cuid w))
          [Fetch url method body]
    | [] => mkResult (Throw (Js.error "TypeError" "fetch failed")) w
              [Fetch url method body]
    end.

(** [res.ok] *)
Definition ok (status : Z) : bool := (200 <=? status)%Z && (status <=? 299)%Z.

(** [v.key], read: [undefined] on a primitive or a missing key, a
    [TypeError] on [null] and [undefined]. *)
Definition get_prop (v : value) (key : string) : outcome value :=
  match v with
  | VUndefined | VJson JNull =>
      Throw (Js.error "TypeError" "Cannot read properties of null or undefined")
  | VJson (JObj fs) =>
      match Json.lookup key fs with
      | Some x => Return (VJson x)
      | None => Return VUndefined
      end
  | VError e =>
      match Json.lookup key (Js.error_fields e) with
      | Some x => Return (VJson x)
      | None => Return VUndefined
      end
  | _ => Return VUndefined
  end.

End Rt.

(** ** The Prisma client on the [Task] and [Agent] tables

    A call first checks its arguments against the schema, then reaches
    the database (or fails to: the next [faults] flag), then reads or
    writes.  Which rows the schema admits changed with the migrations
    (the [status] column came with the one that creates the [Status]
    enum), so the operations take the admission test [accepts] as a
    parameter; [schema_accepts] is the test of the schema file. *)

Module Prisma.

(** How a scalar string argument is read: [undefined] leaves the field
    out, a string is taken, anything else is a validation error. *)
Inductive arg : Type :=
| Omitted
| Given (s : string)
| Invalid.

Definition string_arg (v : value) : arg :=
  match v with
  | VUndefined => Omitted
  | VJson (JStr s) => Given s
  | _ => Invalid
  end.

Definition validation_error : value :=
  Js.error "PrismaClientValidationError" "Invalid invocation".
Definition connection_error : value :=
  Js.error "PrismaClientInitializationError" "Can't reach database server".
Definition not_found_error : value :=
  Js.error "PrismaClientKnownRequestError" "P2025: Record not found".
Definition unique_error : value :=
  Js.error "PrismaClientKnownRequestError" "P2002: Unique constraint failed".

(** enum Status { running complete error } *)
Definition Status : list string := ["running"; "complete"; "error"].

Definition is_Status (s : string) : bool := existsb (String.eqb s) Status.

(** model Task: [agentId] and [status] are required columns, [status]
    of the enum type. *)
Definition schema_accepts (t : Task.t) : bool :=
  match Task.agentId t, Task.status t with
  | Some _, Some s => is_Status s
  | _, _ => false
  end.

Fixpoint find_task (i : string) (ts : list Task.t) : option Task.t :=
  match ts with
  | [] => None
  | t :: ts' => if String.eqb (Task.id t) i then Some t else find_task i ts'
  end.

Fixpoint replace_task (t' : Task.t) (ts : list Task.t) : list Task.t :=
  match ts with
  | [] => []
  | t :: ts' =>
      if String.eqb (Task.id t) (Task.id t') then t' :: ts'
      else t :: replace_task t' ts'
  end.

Fixpoint find_agent (i : string) (l : list Agent.t) : option Agent.t :=
  match l with
  | [] => None
  | a :: l' => if String.eqb (Agent.id a) i then Some a else find_agent i l'
  end.

Definition or_keep (a : arg) (old : string) : string :=
  match a with Given s => s | _ => old end.

Definition or_keep_opt (a : arg) (old : option string) : option string :=
  match a with Given s => Some s | _ => old end.

(** The row after [update({ data: { status, logs, output } })]. *)
Definition patch (t : Task.t) (st lg ou : arg) : Task.t :=
  Task.mk (Task.id t) (Task.agentId t) (or_keep lg (Task.logs t))
          (or_keep ou (Task.output t)) (or_keep_opt st (Task.status t))
          (Task.callback t).

Definition is_invalid (a : arg) : bool :=
  match a with Invalid => true | _ => false end.

(** One round trip to the database. *)
Definition connect (model operation : string) : M unit :=
  fun w =>
    match faults w with
    | true :: fs =>
        mkResult (Throw connection_error)
          (mkWorld (tasks w) (agents w) fs (replies w) (cuid w))
          [Query model operation]
    | false :: fs =>
        mkResult (Return tt)
          (mkWorld (tasks w) (agents w) fs (replies w) (cuid w))
          [Query model operation]
    | [] => mkResult (Return tt) w [Query model operation]
    end.

Definition set_tasks (ts : list Task.t) : M unit :=
  fun w => mkResult (Return tt)
             (mkWorld ts (agents w) (faults w) (replies w) (cuid w)) [].

Section Client.
Variable accepts : Task.t -> bool.

(** prisma.task.update({ where: { id }, data: { status, logs, output } }) *)
Definition task_update (where_id data_status data_logs data_output : value)
  : M Task.t :=
  connect "task" "update" ;;
  rows <- Eff.gets tasks ;;
  let st := string_arg data_status in
  let lg := string_arg data_logs in
  let ou := string_arg data_output in
  match string_arg where_id with
  | Given i =>
      if is_invalid st || is_invalid lg || is_invalid ou
      then Eff.throw validation_error
      else
        match find_task i rows with
        | None => Eff.throw not_found_error
        | Some t =>
            let t' := patch t st lg ou in
            if accepts t' then
              set_tasks (replace_task t' rows) ;; Eff.ret t'
            else Eff.throw validation_error
        end
  | _ => Eff.throw validation_error
  end.

(** The row [create({ data })] would insert: [logs] and [output] are
    required in every version of the model, [id] defaults to a fresh
    cuid, a column left out stays empty. *)
Definition new_row (fresh : string) (i ag st lg ou : arg) : option Task.t :=
  match lg, ou with
  | Given l, Given o =>
      if is_invalid i || is_invalid ag || is_invalid st then None
      else Some (Task.mk (or_keep i fresh) (or_keep_opt ag None) l o
                         (or_keep_opt st None) None)
  | _, _ => None
  end.

(** prisma.task.create({ data: { id, agentId, status, logs, output } }) *)
Definition task_create (d_id d_agentId d_status d_logs d_output : value)
  : M Task.t :=
  connect "task" "create" ;;
  rows <- Eff.gets tasks ;;
  fresh <- Eff.gets cuid ;;
  match new_row fresh (string_arg d_id) (string_arg d_agentId)
                (string_arg d_status) (string_arg d_logs) (string_arg d_output) with
  | Some t =>
      if accepts t then
        match find_task (Task.id t) rows with
        | Some _ => Eff.throw unique_error
        | None => set_tasks (rows ++ [t])%list ;; Eff.ret t
        end
      else Eff.throw validation_error
  | None => Eff.throw validation_error
  end.

(** prisma.task.upsert({ where: { id }, create: { id, logs, output },
    update: { logs, output } }): both payloads are checked before the
    query is sent. *)
Definition task_upsert (where_id c_id c_logs c_output u_logs u_output : value)
  : M Task.t :=
  connect "task" "upsert" ;;
  rows <- Eff.gets tasks ;;
  fresh_id <- Eff.gets cuid ;;
  match string_arg where_id,
        new_row fresh_id (string_arg c_id) Omitted Omitted
                (string_arg c_logs) (string_arg c_output) with
  | Given i, Some fresh =>
      let lg := string_arg u_logs in
      let ou := string_arg u_output in
      if is_invalid lg || is_invalid ou || negb (accepts fresh)
      then Eff.throw validation_error
      else
        match find_task i rows with
        | Some t =>
            let t' := patch t Omitted lg ou in
            if accepts t' then
              set_tasks (replace_task t' rows) ;; Eff.ret t'
            else Eff.throw validation_error
        | None =>
            match find_task (Task.id fresh) rows with
            | Some _ => Eff.throw unique_error
            | None => set_tasks (rows ++ [fresh])%list ;; Eff.ret fresh
            end
        end
  | _, _ => Eff.throw validation_error
  end.

(** prisma.task.findUnique({ where: { id } }) *)
Definition task_findUnique (where_id : value) : M (option Task.t) :=
  connect "task" "findUnique" ;;
  match string_arg where_id with
  | Given i => rows <- Eff.gets tasks ;; Eff.ret (find_task i rows)
  | _ => Eff.throw validation_error
  end.

End Client.

(** prisma.agent.findUnique({ where: { id } }) *)
Definition agent_findUnique (where_id : value) : M (option Agent.t) :=
  connect "agent" "findUnique" ;;
  match string_arg where_id with
  | Given i => rows <- Eff.gets agents ;; Eff.ret (find_agent i rows)
  | _ => Eff.throw validation_error
  end.

End Prisma.

(** ** The handlers *)

Record request := mkRequest {
  body : value;                     (* req.body *)
  query : list (string * json)      (* req.query *)
}.

Definition query_param (req : request) (key : string) : value :=
  match Json.lookup key (query req) with
  | Some j => VJson j
  | None => VUndefined
  end.

Definition opt_json (o : option string) : json :=
  match o with Some s => JStr s | None => JNull end.

(** [dbTask] once its [logs] and [output] are replaced by their parsed
    values. *)
Definition task_object (t : Task.t) (logs output : json) : json :=
  JObj [("id", JStr (Task.id t)); ("agentId", opt_json (Task.agentId t));
        ("logs", logs); ("output", output);
        ("status", opt_json (Task.status t));
        ("callback", opt_json (Task.callback t))].

(** An optional callback argument: a function that returns or throws. *)
Definition callback : Type := option (value -> outcome unit).

Definition call (f : callback) (v : value) : M unit :=
  match f with
  | Some g => Eff.lift (g v)
  | None => Eff.ret tt
  end.

(** The loop the three versions of the callback route share:
    [let retries = 5; while (retries > 0) { try { attempt; return }
    catch (error) { await snooze(2000); console.log(error); retries-- } }
    res.status(500).json({ message })]. *)
Fixpoint retry (retries : nat) (attempt : M unit) : M unit :=
  match retries with
  | O => Rt.respond 500 (Message (Js.str "Unable to update user data"))
  | S n =>
      Eff.try_catch attempt
        (fun error =>
           Rt.snooze 2000 ;; Rt.console_log error ;; retry n attempt)
  end.

(** [const { id, logs, output, status } = req.body] *)
Definition destructure (b : value) : M (value * value * value * value) :=
  id <- Eff.lift (Rt.get_prop b "id") ;;
  logs <- Eff.lift (Rt.get_prop b "logs") ;;
  output <- Eff.lift (Rt.get_prop b "output") ;;
  status <- Eff.lift (Rt.get_prop b "status") ;;
  Eff.ret (id, logs, output, status).

(** *** src/frontend/pages/api/v1/callback/task/index.js *)
Module CallbackTask.
Section Handler.
Variable accepts : Task.t -> bool.

Definition attempt (id logs output : value) : M unit :=
  dbTask <- Prisma.task_update accepts id VUndefined
              (Js.JSON_stringify logs) (Js.JSON_stringify output) ;;
  logs' <- Rt.JSON_parse (Task.logs dbTask) ;;
  output' <- Rt.JSON_parse (Task.output dbTask) ;;
  Rt.respond 200 (Body (VJson (task_object dbTask logs' output'))).

Definition handler (req : request) : M unit :=
  '(id, logs, output, _) <- destructure (body req) ;;
  retry 5 (attempt id logs output).

End Handler.
End CallbackTask.

(** *** src/unnamed/part_008: the version that upserts *)
Module CallbackUpsert.
Section Handler.
Variable accepts : Task.t -> bool.

(** [!output instanceof String], read as JavaScript reads it:
    [(!output) instanceof String]. *)
Definition guard (output : value) : bool :=
  Js.instanceof_String (Js.not output).

(** The reading its author had in mind: [!(output instanceof String)]. *)
Definition intended_guard (output : value) : bool :=
  negb (Js.instanceof_String output).

Definition attempt (id logs output : value) : M unit :=
  dbTask <- Prisma.task_upsert accepts id
              id (Js.JSON_stringify logs) output
              (Js.JSON_stringify logs) output ;;
  logs' <- Rt.JSON_parse (Task.logs dbTask) ;;
  output' <- Rt.JSON_parse (Task.output dbTask) ;;
  Rt.respond 200 (Body (VJson (task_object dbTask logs' output'))).

(** [output = JSON.stringify(output)] inside the guard assigns to a
    [const] binding: reaching it would throw. *)
Definition handler (req : request) : M unit :=
  '(id, logs, output, _) <- destructure (body req) ;;
  (if guard output
   then Eff.throw (Js.error "TypeError" "Assignment to constant variable.")
   else Eff.ret tt) ;;
  retry 5 (attempt id logs output).

End Handler.
End CallbackUpsert.

(** *** src/frontend/pages/api/v1/agent/index.js, second document: the
    version that writes [status] and notifies the task's callback *)
Module CallbackNotify.
Section Handler.
Variable accepts : Task.t -> bool.

Definition fireCallback (url : string) (taskData : json)
           (onSuccess onError : callback) : M value :=
  Eff.try_catch
    ('(status, text) <- Rt.fetch url "POST" (Json.stringify taskData) ;;
     if negb (Rt.ok status) then
       info <- Rt.JSON_parse text ;;
       Eff.throw (VError (mkError "Error" "Failed to make callback call"
                                  (Some info) (Some status)))
     else
       data <- Rt.JSON_parse text ;;
       call onSuccess (VJson data) ;;
       Eff.ret (VJson data))
    (fun error =>
       Rt.console_log error ;; call onError error ;; Eff.ret error).

Definition attempt (id logs output status : value) : M unit :=
  dbTask <- Prisma.task_update accepts id status
              (Js.JSON_stringify logs) (Js.JSON_stringify output) ;;
  logs' <- Rt.JSON_parse (Task.logs dbTask) ;;
  output' <- Rt.JSON_parse (Task.output dbTask) ;;
  let dbTask' := task_object dbTask logs' output' in
  (if Js.truthy (VJson (opt_json (Task.callback dbTask)))
   then fireCallback (match Task.callback dbTask with Some u => u | None => "" end)
                     dbTask' None None ;; Eff.ret tt
   else Eff.ret tt) ;;
  Rt.respond 200 (Body (VJson dbTask')).

Definition handler (req : request) : M unit :=
  '(id, logs, output, status) <- destructure (body req) ;;
  retry 5 (attempt id logs output status).

End Handler.
End CallbackNotify.

(** *** Property enumeration and assignment *)
Module Prop_.

Fixpoint indexed_from (i : nat) (xs : list json) : list (string * json) :=
  match xs with
  | [] => []
  | x :: xs' => (Json.string_of_Z (Z.of_nat i), x) :: indexed_from (S i) xs'
  end.

Fixpoint chars (s : string) : list json :=
  match s with
  | EmptyString => []
  | String c r => JStr (String c EmptyString) :: chars r
  end.

(** What [for (const key in v)] visits, with [v[key]]: the own
    enumerable properties (values parsed from JSON inherit none). *)
Definition own_enumerable (v : value) : list (string * json) :=
  match v with
  | VJson (JObj fs) => fs
  | VJson (JArr xs) => indexed_from 0 xs
  | VJson (JStr s) => indexed_from 0 (chars s)
  | VStringObject s => indexed_from 0 (chars s)
  | VError e => Js.error_fields e
  | _ => []
  end.

(** Object.prototype.hasOwnProperty.call(v, key) *)
Definition hasOwnProperty (v : value) (key : string) : bool :=
  existsb (String.eqb key) (map fst (own_enumerable v)).

Definition has (key : string) (fs : list (string * json)) : bool :=
  match Json.lookup key fs with Some _ => true | None => false end.

(** A canonical numeric string below [bound]. *)
Definition canonical_nat (key : string) (bound : Z) : option nat :=
  match Json.parse_number key with
  | Some (z, EmptyString) =>
      if (0 <=? z)%Z && (z <? bound)%Z && String.eqb (Json.string_of_Z z) key
      then Some (Z.to_nat z) else None
  | _ => None
  end.

Definition array_index (key : string) : option nat := canonical_nat key 4294967295.

(** [xs[i] = v]; the holes a far index leaves are written [null] by
    [JSON.stringify], the only reader of the array here. *)
Fixpoint array_set (i : nat) (v : json) (xs : list json) : list json :=
  match i, xs with
  | O, [] => [v]
  | O, _ :: xs' => v :: xs'
  | S i', [] => JNull :: array_set i' v []
  | S i', x :: xs' => x :: array_set i' v xs'
  end.

Definition resize (n : nat) (xs : list json) : list json :=
  (firstn n xs ++ repeat JNull (n - List.length xs))%list.

(** ToNumber of the value assigned to [length], where it is an array
    length.  Strings other than canonical integers and arrays are
    taken as invalid (their coercion is not modelled). *)
Definition to_length (v : json) : option nat :=
  match v with
  | JNum n => if (0 <=? n)%Z && (n <? 4294967296)%Z then Some (Z.to_nat n) else None
  | JNull => Some 0
  | JBool b => Some (if b then 1 else 0)
  | JStr s => if String.eqb s "" then Some 0 else canonical_nat s 4294967296
  | _ => None
  end.

(** [target[key] = v] in strict mode (an ES module).  On a plain object
    without an own [__proto__] property the key [__proto__] reaches the
    inherited setter: the prototype may change, the own properties do
    not.  On an array only an index or [length] changes what
    [JSON.stringify] shows. *)
Definition set_property (target : json) (key : string) (v : json) : outcome json :=
  match target with
  | JObj fs =>
      if String.eqb key "__proto__" && negb (has key fs)
      then Return (JObj fs)
      else Return (JObj (Json.obj_set key v fs))
  | JArr xs =>
      match array_index key with
      | Some i => Return (JArr (array_set i v xs))
      | None =>
          if String.eqb key "length" then
            match to_length v with
            | Some n => Return (JArr (resize n xs))
            | None => Throw (Js.error "RangeError" "Invalid array length")
            end
          else Return (JArr xs)
      end
  | JNull => Throw (Js.error "TypeError" "Cannot set properties of null")
  | _ => Throw (Js.error "TypeError" "Cannot create property on a primitive")
  end.

End Prop_.

(** *** src/frontend/utils/server/run-workflow.js and
    src/unnamed/part_007, first document *)
Module RunWorkflow.
Section Handler.
Variable accepts : Task.t -> bool.
(** const ENGINE_BASE_ENDPOINT = process.env.WORKFLOW_ENGINE_URL *)
Variable ENGINE_BASE_ENDPOINT : string.

Definition runAgent (agent : json) (onSuccess onError : callback) : M value :=
  Eff.try_catch
    ('(status, text) <- Rt.fetch (ENGINE_BASE_ENDPOINT ++ "/api/task") "POST"
                                 (Json.stringify agent) ;;
     if negb (Rt.ok status) then
       info <- Rt.JSON_parse text ;;
       Eff.throw (VError (mkError "Error" "Failed to start agent task"
                                  (Some info) (Some status)))
     else
       data <- Rt.JSON_parse text ;;
       call onSuccess (VJson data) ;;
       Eff.ret (VJson data))
    (fun error =>
       Rt.console_log error ;; call onError error ;; Eff.ret error).

(** [for (const key in input) { if (hasOwnProperty.call(input, key))
    { const element = input[key]; agent.variables[key] = element } }] *)
Fixpoint populate (input : value) (entries : list (string * json))
         (variables : json) : outcome json :=
  match entries with
  | [] => Return variables
  | (key, element) :: rest =>
      if Prop_.hasOwnProperty input key then
        match Prop_.set_property variables key element with
        | Return variables' => populate input rest variables'
        | Throw e => Throw e
        end
      else populate input rest variables
  end.

(** The registry seed: the stored variables with the keys of the input
    written over them. *)
Definition seed (stored : json) (input : value) : outcome json :=
  populate input (Prop_.own_enumerable input) stored.

Definition workflowAgent (agent : Agent.t) (variables workflow : json) : json :=
  JObj [("id", JStr (Agent.id agent)); ("name", JStr (Agent.name agent));
        ("variables", variables); ("promptChain", workflow)].

Definition handler (req : request) : M unit :=
  let agentId := query_param req "agentId" in
  input <- Eff.lift (Rt.get_prop (body req) "input") ;;
  agent <- Prisma.agent_findUnique agentId ;;
  match agent with
  | None => Rt.respond 404 (Message (Js.str "Agent not found"))
  | Some agent =>
      variables <- Rt.JSON_parse (Agent.variables agent) ;;
      workflow <- Rt.JSON_parse (Agent.workflow agent) ;;
      variables' <- Eff.lift (seed variables input) ;;
      response <- runAgent (workflowAgent agent variables' workflow) None None ;;
      if Js.instanceof_Error response then
        Rt.respond 500 (Message response)
      else
        id <- Eff.lift (Rt.get_prop response "id") ;;
        status <- Eff.lift (Rt.get_prop response "status") ;;
        logs <- Eff.lift (Rt.get_prop response "logs") ;;
        output <- Eff.lift (Rt.get_prop response "output") ;;
        task <- Prisma.task_create accepts id (Js.str (Agent.id agent)) status
                  (Js.JSON_stringify logs) (Js.JSON_stringify output) ;;
        Rt.respond 201 (Body response)
  end.

End Handler.
End RunWorkflow.

(** *** src/frontend/pages/api/v1/task/[taskId]/index.js, first document *)
Module TaskGet.

Definition handler (req : request) : M unit :=
  let taskId := query_param req "taskId" in
  Eff.try_catch
    (task <- Prisma.task_findUnique taskId ;;
     match task with
     | None => Rt.respond 404 (Message (Js.str "Task not found"))
     | Some task =>
         logs <- Rt.JSON_parse (Task.logs task) ;;
         output <- Rt.JSON_parse (Task.output task) ;;
         Rt.respond 200 (Body (VJson (task_object task logs output)))
     end)
    (fun error => Rt.console_log error ;; Rt.respond 500 (Message error)).

End TaskGet.

(** ** What a run shows *)

Inductive tick : Type :=
| Attempt                (* a Prisma call *)
| Delay (ms : Z).        (* a snooze *)

Fixpoint timeline (evs : list event) : list tick :=
  match evs with
  | [] => []
  | Query _ _ :: r => Attempt :: timeline r
  | Snooze ms :: r => Delay ms :: timeline r
  | _ :: r => timeline r
  end.

Fixpoint responses (evs : list event) : list (Z * reply) :=
  match evs with
  | [] => []
  | Respond code r :: evs' => (code, r) :: responses evs'
  | _ :: evs' => responses evs'
  end.

Fixpoint posts (evs : list event) : list (string * string * string) :=
  match evs with
  | [] => []
  | Fetch url method text :: evs' => (url, method, text) :: posts evs'
  | _ :: evs' => posts evs'
  end.


Fixpoint attempts (evs : list event) : nat :=
  match evs with
  | [] => 0
  | Query _ _ :: evs' => S (attempts evs')
  | _ :: evs' => attempts evs'
  end.

(** [k] failed attempts, each followed by its delay, then the attempt
    that succeeds if one does. *)
Fixpoint schedule (k : nat) (ok : bool) : list tick :=
  match k with
  | O => if ok then [Attempt] else []
  | S k' => Attempt :: Delay 2000 :: schedule k' ok
  end.

Lemma timeline_app a b : timeline (a ++ b)%list = (timeline a ++ timeline b)%list.
Proof. induction a as [|[] a IH]; simpl; now rewrite ?IH. Qed.

Lemma responses_app a b : responses (a ++ b)%list = (responses a ++ responses b)%list.
Proof. induction a as [|[] a IH]; simpl; now rewrite ?IH. Qed.

Lemma posts_app a b : posts (a ++ b)%list = (posts a ++ posts b)%list.
Proof. induction a as [|[] a IH]; simpl; now rewrite ?IH. Qed.


Lemma attempts_app a b : attempts (a ++ b)%list = attempts a + attempts b.
Proof. induction a as [|[] a IH]; simpl; now rewrite ?IH. Qed.


(** ** Facts about the Prisma calls *)

Module PrismaFacts.
Import Prisma.

(** Two worlds that differ, if at all, in what [fetch] will meet and in
    the database faults still to come. *)
Definition same_tables (w w' : world) : Prop :=
  tasks w' = tasks w /\ agents w' = agents w /\ cuid w' = cuid w.

Ltac step_monad :=
  cbv [Eff.bind Eff.ret Eff.throw Eff.try_catch Eff.gets Eff.emit Eff.lift
       set_tasks Rt.respond Rt.snooze Rt.console_log];
  cbn [out final events tasks agents faults replies cuid].

Lemma connect_spec model op w :
  let r := connect model op w in
  events r = [Query model op] /\ same_tables w (final r) /\
  replies (final r) = replies w /\
  (out r = Return tt \/ out r = Throw connection_error).
Proof.
  unfold connect, same_tables. destruct (faults w) as [|[] fs]; cbn; auto 10.
Qed.

Section Client.
Variable accepts : Task.t -> bool.

(** [update] writes nothing when it throws; when it returns, the row
    existed and is replaced by its patch. *)
Lemma task_update_spec i st lg ou w :
  let r := task_update accepts i st lg ou w in
  events r = [Query "task" "update"] /\
  agents (final r) = agents w /\ cuid (final r) = cuid w /\
  replies (final r) = replies w /\
  ((exists e, out r = Throw e /\ tasks (final r) = tasks w) \/
   (exists k t,
       string_arg i = Given k /\ find_task k (tasks w) = Some t /\
       is_invalid (string_arg st) || is_invalid (string_arg lg)
         || is_invalid (string_arg ou) = false /\
       let t' := patch t (string_arg st) (string_arg lg) (string_arg ou) in
       accepts t' = true /\ out r = Return t' /\
       tasks (final r) = replace_task t' (tasks w))).
Proof.
  unfold task_update.
  destruct (connect_spec "task" "update" w) as (Hev & (Ht & Ha & Hc) & Hr & Ho).
  step_monad. destruct (connect "task" "update" w) as [o w1 ev]; cbn in *. subst ev.
  destruct Ho as [-> | ->]; cbn; [| rewrite Ht; eauto 10].
  destruct (string_arg i) as [|k|]; cbn; try (rewrite Ht; eauto 10).
  destruct (is_invalid (string_arg st) || is_invalid (string_arg lg)
            || is_invalid (string_arg ou)) eqn:Hinv; cbn;
    [rewrite ?Ht; eauto 10|].
  rewrite ?Ht. destruct (find_task k (tasks w)) as [t|] eqn:Hf; cbn; [|eauto 10].
  destruct (accepts _) eqn:Hacc; cbn; [|eauto 10].
  repeat split; auto. right. exists k, t. auto 10.
Qed.

(** [upsert] writes nothing when it throws; when it returns it has
    patched the row of that id, or appended the new row when there was
    none. *)
Lemma task_upsert_spec i ci cl co ul uo w :
  let r := task_upsert accepts i ci cl co ul uo w in
  events r = [Query "task" "upsert"] /\
  agents (final r) = agents w /\ cuid (final r) = cuid w /\
  replies (final r) = replies w /\
  ((exists e, out r = Throw e /\ tasks (final r) = tasks w) \/
   (exists k fresh,
       string_arg i = Given k /\
       new_row (cuid w) (string_arg ci) Omitted Omitted
               (string_arg cl) (string_arg co) = Some fresh /\
       accepts fresh = true /\
       is_invalid (string_arg ul) || is_invalid (string_arg uo) = false /\
       ((exists t,
            find_task k (tasks w) = Some t /\
            let t' := patch t Omitted (string_arg ul) (string_arg uo) in
            accepts t' = true /\ out r = Return t' /\
            tasks (final r) = replace_task t' (tasks w)) \/
        (find_task k (tasks w) = None /\
         find_task (Task.id fresh) (tasks w) = None /\
         out r = Return fresh /\
         tasks (final r) = (tasks w ++ [fresh])%list)))).
Proof.
  unfold task_upsert.
  destruct (connect_spec "task" "upsert" w) as (Hev & (Ht & Ha & Hc) & Hr & Ho).
  step_monad. destruct (connect "task" "upsert" w) as [o w1 ev]; cbn in *. subst ev.
  destruct Ho as [-> | ->]; cbn; [| rewrite ?Ht; eauto 10].
  rewrite Ht, Hc.
  destruct (string_arg i) as [|k|]; cbn; try (rewrite ?Ht; eauto 10).
  destruct (new_row _ _ _ _ _ _) as [fresh|] eqn:Hnew; cbn; [|eauto 10].
  destruct (accepts fresh) eqn:Hacc;
    [| rewrite orb_true_r; cbn; eauto 10].
  rewrite orb_false_r.
  destruct (is_invalid (string_arg ul) || is_invalid (string_arg uo)) eqn:Hinv; cbn;
    [eauto 10|].
  destruct (find_task k (tasks w)) as [t|] eqn:Hf; cbn.
  - destruct (accepts (patch _ _ _ _)) eqn:Hacc'; cbn; [|eauto 10].
    repeat split; auto. right. exists k, fresh. repeat split; auto.
    left. exists t. auto.
  - destruct (find_task (Task.id fresh) (tasks w)) eqn:Hf'; cbn; [eauto 10|].
    repeat split; auto. right. exists k, fresh. repeat split; auto.
Qed.

(** [create] appends its row, whose id was free, or throws and writes
    nothing. *)
Lemma task_create_spec di da ds dl dou w :
  let r := task_create accepts di da ds dl dou w in
  events r = [Query "task" "create"] /\
  agents (final r) = agents w /\ cuid (final r) = cuid w /\
  replies (final r) = replies w /\
  ((exists e, out r = Throw e /\ tasks (final r) = tasks w) \/
   (exists t,
       new_row (cuid w) (string_arg di) (string_arg da) (string_arg ds)
               (string_arg dl) (string_arg dou) = Some t /\
       accepts t = true /\ find_task (Task.id t) (tasks w) = None /\
       out r = Return t /\ tasks (final r) = (tasks w ++ [t])%list)).
Proof.
  unfold task_create.
  destruct (connect_spec "task" "create" w) as (Hev & (Ht & Ha & Hc) & Hr & Ho).
  step_monad. destruct (connect "task" "create" w) as [o w1 ev]; cbn in *. subst ev.
  destruct Ho as [-> | ->]; cbn; [| rewrite ?Ht; eauto 10].
  rewrite Ht, Hc.
  destruct (new_row _ _ _ _ _ _) as [t|] eqn:Hnew; cbn; [|eauto 10].
  destruct (accepts t) eqn:Hacc; cbn; [|eauto 10].
  destruct (find_task (Task.id t) (tasks w)) eqn:Hf; cbn; [eauto 10|].
  repeat split; auto. right. exists t. auto.
Qed.

Lemma task_findUnique_spec i w :
  let r := task_findUnique i w in
  events r = [Query "task" "findUnique"] /\
  tasks (final r) = tasks w /\ agents (final r) = agents w /\
  cuid (final r) = cuid w /\ replies (final r) = replies w /\
  ((exists e, out r = Throw e) \/
   (exists k, string_arg i = Given k /\ out r = Return (find_task k (tasks w)))).
Proof.
  unfold task_findUnique.
  destruct (connect_spec "task" "findUnique" w) as (Hev & (Ht & Ha & Hc) & Hr & Ho).
  step_monad. destruct (connect "task" "findUnique" w) as [o w1 ev]; cbn in *. subst ev.
  destruct Ho as [-> | ->]; cbn; [| eauto 10].
  destruct (string_arg i) as [|k|]; cbn; rewrite ?Ht; eauto 10.
Qed.

End Client.

Lemma agent_findUnique_spec i w :
  let r := agent_findUnique i w in
  events r = [Query "agent" "findUnique"] /\
  tasks (final r) = tasks w /\ agents (final r) = agents w /\
  cuid (final r) = cuid w /\ replies (final r) = replies w /\
  ((exists e, out r = Throw e) \/
   (exists k, string_arg i = Given k /\ out r = Return (find_agent k (agents w)))).
Proof.
  unfold agent_findUnique.
  destruct (connect_spec "agent" "findUnique" w) as (Hev & (Ht & Ha & Hc) & Hr & Ho).
  step_monad. destruct (connect "agent" "findUnique" w) as [o w1 ev]; cbn in *. subst ev.
  destruct Ho as [-> | ->]; cbn; [| eauto 10].
  destruct (string_arg i) as [|k|]; cbn; rewrite ?Ha; eauto 10.
Qed.

End PrismaFacts.

(** ** Facts about the task table *)

Module Table.
Import Prisma.



Lemma find_task_id k ts t : find_task k ts = Some t -> Task.id t = k.
Proof.
  induction ts as [|x ts IH]; simpl; [discriminate|].
  destruct (String.eqb_spec (Task.id x) k); [now intros [= <-] | exact IH].
Qed.






Lemma find_replace_task t' ts t :
  find_task (Task.id t') ts = Some t ->
  find_task (Task.id t') (replace_task t' ts) = Some t'.
Proof.
  induction ts as [|x ts IH]; simpl; [discriminate|].
  destruct (String.eqb (Task.id x) (Task.id t')) eqn:E; simpl.
  - now rewrite String.eqb_refl.
  - rewrite E. exact IH.
Qed.

Lemma Forall_replace_task (P : Task.t -> Prop) t' ts :
  Forall P ts -> P t' -> Forall P (replace_task t' ts).
Proof.
  induction 1 as [|x ts Hx Hts IH]; simpl; intros Ht; [constructor|].
  destruct (String.eqb (Task.id x) (Task.id t')); constructor; auto.
Qed.


(** One write of a handler, each written row satisfying [P]. *)
Inductive change (P : Task.t -> Prop) (ts : list Task.t) : list Task.t -> Prop :=
| change_replace t t' :
    find_task (Task.id t') ts = Some t -> P t' ->
    change P ts (replace_task t' ts)
| change_append t :
    find_task (Task.id t) ts = None -> P t ->
    change P ts (ts ++ [t])%list.

Inductive changes (P : Task.t -> Prop) (ts : list Task.t) : list Task.t -> Prop :=
| changes_none : changes P ts ts
| changes_step us vs : changes P ts us -> change P us vs -> changes P ts vs.

Lemma changes_trans P ts us vs :
  changes P ts us -> changes P us vs -> changes P ts vs.
Proof. intros H1 H2. induction H2; [assumption | econstructor; eauto]. Qed.

Lemma changes_one P ts us : change P ts us -> changes P ts us.
Proof. intros H. econstructor; [constructor | exact H]. Qed.

Lemma changes_weaken (P Q : Task.t -> Prop) ts us :
  (forall t, P t -> Q t) -> changes P ts us -> changes Q ts us.
Proof.
  intros HPQ H. induction H as [|us vs _ IH Hc]; [constructor|].
  econstructor; [exact IH|]. destruct Hc; [eapply change_replace | eapply change_append]; eauto.
Qed.



Lemma change_Forall (P : Task.t -> Prop) ts us :
  change P ts us -> Forall P ts -> Forall P us.
Proof.
  intros [t t' Hf Ht | t Hf Ht] H.
  - now apply Forall_replace_task.
  - apply Forall_app. split; [exact H | now constructor].
Qed.

Lemma changes_Forall (P : Task.t -> Prop) ts us :
  changes P ts us -> Forall P ts -> Forall P us.
Proof. induction 1; eauto using change_Forall. Qed.

End Table.

(** ** Facts about the retry loop *)

Module Loop.

Lemma retry_S n (attempt : M unit) w :
  retry (S n) attempt w =
  match out (attempt w) with
  | Return _ => attempt w
  | Throw e =>
      let r' := retry n attempt (final (attempt w)) in
      mkResult (out r') (final r')
               (events (attempt w) ++ Snooze 2000 :: ConsoleLog e :: events r')%list
  end.
Proof.
  cbn [retry]. unfold Eff.try_catch.
  destruct (out (attempt w)) as [a|e]; [reflexivity|].
  unfold Eff.bind, Rt.snooze, Rt.console_log, Eff.emit. cbn. reflexivity.
Qed.

(** What one pass through the [try] block shows: one Prisma call, no
    delay, and either the 200 response or an exception and no response. *)
Definition one_try (r : result unit) : Prop :=
  timeline (events r) = [Attempt] /\
  ((exists b, out r = Return tt /\ responses (events r) = [(200%Z, b)]) \/
   (exists e, out r = Throw e /\ responses (events r) = [])).

Definition gave_up : Z * reply :=
  (500%Z, Message (Js.str "Unable to update user data")).


(** Writes add up along the loop. *)
Lemma retry_changes (P : Task.t -> Prop) n (attempt : M unit) :
  (forall w, Table.changes P (tasks w) (tasks (final (attempt w)))) ->
  forall w, Table.changes P (tasks w) (tasks (final (retry n attempt w))).
Proof.
  intros H. induction n as [|n IH]; intros w.
  - cbn. constructor.
  - rewrite retry_S. destruct (out (attempt w)); [apply H|].
    cbn. eapply Table.changes_trans; [apply H | apply IH].
Qed.




Lemma destructure_spec b w :
  let r := destructure b w in
  final r = w /\ events r = [] /\
  ((exists e, out r = Throw e /\
              (b = VUndefined \/ b = VJson JNull)) \/
   (exists i l o s,
       Rt.get_prop b "id" = Return i /\ Rt.get_prop b "logs" = Return l /\
       Rt.get_prop b "output" = Return o /\ Rt.get_prop b "status" = Return s /\
       out r = Return (i, l, o, s))).
Proof.
  unfold destructure, Eff.bind, Eff.lift, Eff.ret.
  destruct b as [|[| | | | |fs]|e|s]; cbn;
    repeat match goal with
           | |- context [Json.lookup ?k ?fs] => destruct (Json.lookup k fs)
           end; cbn; (split; [reflexivity | split; [reflexivity|]]);
    first [left; eexists; split; [reflexivity | auto]; fail
          | right; do 4 eexists; repeat split; reflexivity].
Qed.

End Loop.

(** ** The update version, one attempt at a time *)

Lemma bind_run {A B} (m : M A) (k : A -> M B) w :
  Eff.bind m k w =
  match out (m w) with
  | Return a =>
      let r' := k a (final (m w)) in
      mkResult (out r') (final r') (events (m w) ++ events r')%list
  | Throw e => mkResult (Throw e) (final (m w)) (events (m w))
  end.
Proof. reflexivity. Qed.

Module UpdateFacts.
Import Prisma PrismaFacts.

Lemma stringify_arg v :
  string_arg (Js.JSON_stringify v) = Omitted \/
  exists j, string_arg (Js.JSON_stringify v) = Given (Json.stringify j).
Proof. destruct v; [left; reflexivity | right; eexists; reflexivity ..]. Qed.

Lemma stringify_arg_valid v : is_invalid (string_arg (Js.JSON_stringify v)) = false.
Proof. destruct v; reflexivity. Qed.






Lemma patch_id t st lg ou : Task.id (patch t st lg ou) = Task.id t.
Proof. reflexivity. Qed.



Section Attempt.
Variable accepts : Task.t -> bool.

Definition written (i l o : value) (t : Task.t) : Task.t :=
  patch t Omitted (string_arg (Js.JSON_stringify l)) (string_arg (Js.JSON_stringify o)).

(** Every way one attempt can go. *)
Lemma update_attempt_spec i l o w :
  let r := CallbackTask.attempt accepts i l o w in
  agents (final r) = agents w /\ cuid (final r) = cuid w /\
  replies (final r) = replies w /\
  ((exists e, out r = Throw e /\ tasks (final r) = tasks w /\
              events r = [Query "task" "update"]) \/
   (exists k t,
       string_arg i = Given k /\ find_task k (tasks w) = Some t /\
       accepts (written i l o t) = true /\
       tasks (final r) = replace_task (written i l o t) (tasks w) /\
       ((exists lj oj,
            Json.parse (Task.logs (written i l o t)) = Some lj /\
            Json.parse (Task.output (written i l o t)) = Some oj /\
            out r = Return tt /\
            events r = [Query "task" "update";
                        Respond 200 (Body (VJson (task_object (written i l o t) lj oj)))]) \/
        (exists e,
            (Json.parse (Task.logs (written i l o t)) = None \/
             Json.parse (Task.output (written i l o t)) = None) /\
            out r = Throw e /\ events r = [Query "task" "update"])))).
Proof.
  unfold CallbackTask.attempt.
  pose proof (task_update_spec accepts i VUndefined (Js.JSON_stringify l)
                (Js.JSON_stringify o) w) as H.
  cbv zeta in H. destruct H as (Hev & Ha & Hc & Hr & Hcase).
  rewrite bind_run.
  destruct (task_update accepts i VUndefined (Js.JSON_stringify l)
              (Js.JSON_stringify o) w) as [ou w1 ev]; cbn in *. subst ev.
  destruct Hcase as [(e & -> & Ht) | (k & t & Hi & Hf & _ & Hacc & -> & Ht)].
  - cbn. repeat split; auto. left. eauto.
  - fold (written i l o t) in *.
    remember (written i l o t) as t' eqn:Et'.
    unfold Rt.JSON_parse, Eff.bind, Eff.ret, Eff.throw, Rt.respond, Eff.emit.
    destruct (Json.parse (Task.logs t')) as [lj|] eqn:Hl; cbn.
    + destruct (Json.parse (Task.output t')) as [oj|] eqn:Ho; cbn.
      * repeat split; auto. right. exists k, t. subst t'.
        repeat split; auto. left. exists lj, oj.
        split; [exact Hl | split; [exact Ho | auto]].
      * repeat split; auto. right. exists k, t. subst t'.
        repeat split; auto. right. eexists.
        split; [right; exact Ho | auto].
    + repeat split; auto. right. exists k, t. subst t'.
      repeat split; auto. right. eexists.
      split; [left; exact Hl | auto].
Qed.

Lemma update_attempt_one_try i l o w : Loop.one_try (CallbackTask.attempt accepts i l o w).
Proof.
  destruct (update_attempt_spec i l o w) as (_ & _ & _ & [(e & Ho & _ & Hev) | (k & t & _ & _ & _ & _ & Hc)]).
  - unfold Loop.one_try. rewrite Hev, Ho. cbn. eauto.
  - destruct Hc as [(lj & oj & _ & _ & Ho & Hev) | (e & _ & Ho & Hev)];
      unfold Loop.one_try; rewrite Hev, Ho; cbn; eauto.
Qed.

Lemma update_attempt_changes i l o w :
  Table.changes (fun t => accepts t = true) (tasks w)
                (tasks (final (CallbackTask.attempt accepts i l o w))).
Proof.
  destruct (update_attempt_spec i l o w) as (_ & _ & _ & [(e & _ & Ht & _) | (k & t & _ & Hf & Hacc & Ht & _)]);
    rewrite Ht; [constructor|].
  apply Table.changes_one. eapply Table.change_replace; [|exact Hacc].
  unfold written. rewrite patch_id, (Table.find_task_id _ _ _ Hf). exact Hf.
Qed.



(** The delivery is already in the table. *)
Definition settled (i l o : value) (ts : list Task.t) : Prop :=
  exists k t, string_arg i = Given k /\ find_task k ts = Some t /\
              written i l o t = t.



End Attempt.
End UpdateFacts.

Lemma result_eta {A} (r : result A) : mkResult (out r) (final r) (events r) = r.
Proof. now destruct r. Qed.

(** The body cannot be destructured: [null] or [undefined]. *)
Definition nullish (b : value) : Prop := b = VUndefined \/ b = VJson JNull.

(** The fields of a body that can. *)
Definition fields_of (b : value) (i l o s : value) : Prop :=
  Rt.get_prop b "id" = Return i /\ Rt.get_prop b "logs" = Return l /\
  Rt.get_prop b "output" = Return o /\ Rt.get_prop b "status" = Return s.

Module UpdateHandler.
Import Prisma PrismaFacts UpdateFacts.

Section Handler.
Variable accepts : Task.t -> bool.

(** The handler is its loop, unless the body cannot be destructured. *)
Lemma update_handler_cases req w :
  (nullish (body req) /\
   exists e, CallbackTask.handler accepts req w = mkResult (Throw e) w []) \/
  (exists i l o s,
      fields_of (body req) i l o s /\
      CallbackTask.handler accepts req w = retry 5 (CallbackTask.attempt accepts i l o) w).
Proof.
  unfold CallbackTask.handler. rewrite bind_run.
  destruct (Loop.destructure_spec (body req) w) as (Hf & Hev & [(e & Ho & Hn) | (i & l & o & s & H1 & H2 & H3 & H4 & Ho)]).
  - left. split; [exact Hn|]. exists e.
    destruct (destructure (body req) w) as [ou f ev]; cbn in *. now subst.
  - right. exists i, l, o, s. split; [repeat split; assumption|].
    destruct (destructure (body req) w) as [ou f ev]; cbn in *. subst.
    apply result_eta.
Qed.

End Handler.
End UpdateHandler.

(** ** The upsert version, one attempt at a time *)

Module UpsertFacts.
Import Prisma PrismaFacts UpdateFacts.

(** The guard is false whatever [output] is: [!output] is a primitive
    boolean, and no primitive is an instance of [String]. *)
Lemma guard_false output : CallbackUpsert.guard output = false.
Proof. reflexivity. Qed.

(** No JSON value is an instance of [String] either, so the guard as
    meant would hold for every delivered [output]. *)
Lemma intended_guard_json j : CallbackUpsert.intended_guard (VJson j) = true.
Proof. reflexivity. Qed.

Section Attempt.
Variable accepts : Task.t -> bool.

(** The row the [create] payload describes. *)
Definition created (k ls os : string) : Task.t := Task.mk k None ls os None None.

Lemma upsert_attempt_spec i l o w :
  let r := CallbackUpsert.attempt accepts i l o w in
  agents (final r) = agents w /\ cuid (final r) = cuid w /\
  replies (final r) = replies w /\
  ((exists e, out r = Throw e /\ tasks (final r) = tasks w /\
              events r = [Query "task" "upsert"]) \/
   (exists k ls os row,
       string_arg i = Given k /\
       string_arg (Js.JSON_stringify l) = Given ls /\ o = Js.str os /\
       accepts (created k ls os) = true /\ accepts row = true /\
       Task.id row = k /\ Task.logs row = ls /\ Task.output row = os /\
       ((exists t, find_task k (tasks w) = Some t /\
                   row = patch t Omitted (Given ls) (Given os) /\
                   tasks (final r) = replace_task row (tasks w)) \/
        (find_task k (tasks w) = None /\ row = created k ls os /\
         tasks (final r) = (tasks w ++ [row])%list)) /\
       ((exists lj oj,
            Json.parse ls = Some lj /\ Json.parse os = Some oj /\
            out r = Return tt /\
            events r = [Query "task" "upsert";
                        Respond 200 (Body (VJson (task_object row lj oj)))]) \/
        (exists e, Json.parse os = None /\ out r = Throw e /\
                   events r = [Query "task" "upsert"])))).
Proof.
  unfold CallbackUpsert.attempt.
  pose proof (task_upsert_spec accepts i i (Js.JSON_stringify l) o
                (Js.JSON_stringify l) o w) as H.
  cbv zeta in H. destruct H as (Hev & Ha & Hc & Hr & Hcase).
  rewrite bind_run.
  destruct (task_upsert accepts i i (Js.JSON_stringify l) o
              (Js.JSON_stringify l) o w) as [ou w1 ev]; cbn in *. subst ev.
  destruct Hcase as [(e & -> & Ht) | (k & fresh & Hi & Hnew & Hacc & Hinv & Hrow)].
  - cbn. repeat split; auto. left. eauto.
  - rewrite Hi in Hnew. unfold new_row in Hnew.
    destruct (stringify_arg l) as [El | (j & El)]; rewrite El in *; [discriminate|].
    destruct o as [|[| | |os| |]| |]; try discriminate. cbn in Hnew.
    injection Hnew as <-. fold (created k (Json.stringify j) os) in *.
    assert (Hrows : exists row,
               ou = Return row /\ accepts row = true /\ Task.id row = k /\
               Task.logs row = Json.stringify j /\ Task.output row = os /\
               ((exists t, find_task k (tasks w) = Some t /\
                           row = patch t Omitted (Given (Json.stringify j)) (Given os) /\
                           tasks w1 = replace_task row (tasks w)) \/
                (find_task k (tasks w) = None /\
                 row = created k (Json.stringify j) os /\
                 tasks w1 = (tasks w ++ [row])%list))).
    { destruct Hrow as [(t & Hf & Hacc' & -> & Ht) | (Hf & _ & -> & Ht)].
      - eexists. split; [reflexivity|]. repeat split; auto.
        + cbn. eapply Table.find_task_id; eauto.
        + left. exists t. auto.
      - eexists. split; [reflexivity|]. repeat split; auto. }
    destruct Hrows as (row & -> & Haccr & Hid & Hlg & Hou & Hwhere).
    unfold Rt.JSON_parse, Eff.bind, Eff.ret, Eff.throw, Rt.respond, Eff.emit.
    rewrite Hlg, Hou, Json.parse_stringify_norm. cbn.
    destruct (Json.parse os) as [oj|] eqn:Ho; cbn.
    + repeat split; auto. right. exists k, (Json.stringify j), os, row.
      repeat split; auto.
      left. exists (Json.norm j), oj. repeat split; auto.
      apply Json.parse_stringify_norm.
    + repeat split; auto. right. exists k, (Json.stringify j), os, row.
      repeat split; auto. right. eexists. eauto.
Qed.


(** Every row an attempt writes is admitted by the schema and holds
    [output] as the request carried it. *)
Lemma upsert_attempt_changes i l o w :
  Table.changes (fun t => accepts t = true /\ o = Js.str (Task.output t))
                (tasks w) (tasks (final (CallbackUpsert.attempt accepts i l o w))).
Proof.
  destruct (upsert_attempt_spec i l o w) as (_ & _ & _ & [(e & _ & Ht & _) | (k & ls & os & row & _ & _ & Eo & _ & Hacc & Hid & _ & Hou & Hwhere & _)]).
  - rewrite Ht. constructor.
  - apply Table.changes_one.
    destruct Hwhere as [(t & Hf & _ & ->) | (Hf & _ & ->)].
    + eapply Table.change_replace; [rewrite Hid; exact Hf | now rewrite Hou].
    + eapply Table.change_append; [rewrite Hid; exact Hf | now rewrite Hou].
Qed.

(** The delivery is already in the table. *)
Definition settled (i l o : value) (ts : list Task.t) : Prop :=
  exists k t, string_arg i = Given k /\ find_task k ts = Some t /\
              patch t Omitted (string_arg (Js.JSON_stringify l)) (string_arg o) = t.




End Attempt.
End UpsertFacts.

Module UpsertHandler.
Import Prisma PrismaFacts UpsertFacts.

Section Handler.
Variable accepts : Task.t -> bool.

Lemma upsert_handler_cases req w :
  (nullish (body req) /\
   exists e, CallbackUpsert.handler accepts req w = mkResult (Throw e) w []) \/
  (exists i l o s,
      fields_of (body req) i l o s /\
      CallbackUpsert.handler accepts req w = retry 5 (CallbackUpsert.attempt accepts i l o) w).
Proof.
  unfold CallbackUpsert.handler. rewrite bind_run.
  destruct (Loop.destructure_spec (body req) w) as (Hf & Hev & [(e & Ho & Hn) | (i & l & o & s & H1 & H2 & H3 & H4 & Ho)]).
  - left. split; [exact Hn|]. exists e.
    destruct (destructure (body req) w) as [ou f ev]; cbn in *. now subst.
  - right. exists i, l, o, s. split; [repeat split; assumption|].
    destruct (destructure (body req) w) as [ou f ev]; cbn in *. subst.
    rewrite ?bind_run. cbn. apply result_eta.
Qed.

End Handler.
End UpsertHandler.

(** ** Outbound calls: [fireCallback] and [runAgent] *)

Module Outbound.

(** What the next [fetch] brings back when all goes well: a 2xx
    response whose body is JSON. *)
Definition delivered (w : world) : option json :=
  match replies w with
  | HttpResponse status text :: _ => if Rt.ok status then Json.parse text else None
  | _ => None
  end.

(** The shape [fireCallback] and [runAgent] share. *)
Definition post_json (url : string) (message : string) (data : json)
           (onSuccess onError : callback) : M value :=
  Eff.try_catch
    ('(status, text) <- Rt.fetch url "POST" (Json.stringify data) ;;
     if negb (Rt.ok status) then
       info <- Rt.JSON_parse text ;;
       Eff.throw (VError (mkError "Error" message (Some info) (Some status)))
     else
       data <- Rt.JSON_parse text ;;
       call onSuccess (VJson data) ;;
       Eff.ret (VJson data))
    (fun error =>
       Rt.console_log error ;; call onError error ;; Eff.ret error).

Lemma fireCallback_post_json url data f g :
  CallbackNotify.fireCallback url data f g =
  post_json url "Failed to make callback call" data f g.
Proof. reflexivity. Qed.

Lemma runAgent_post_json endpoint agent f g :
  RunWorkflow.runAgent endpoint agent f g =
  post_json (endpoint ++ "/api/task") "Failed to start agent task" agent f g.
Proof. reflexivity. Qed.

(** Without callbacks the call never throws: it returns the parsed
    body on success and an [Error], which it has logged, otherwise.
    It makes one request and touches neither table. *)
Lemma post_json_spec url message data w :
  let r := post_json url message data None None w in
  tasks (final r) = tasks w /\ agents (final r) = agents w /\
  faults (final r) = faults w /\ cuid (final r) = cuid w /\
  replies (final r) = tl (replies w) /\
  match delivered w with
  | Some d =>
      out r = Return (VJson d) /\
      events r = [Fetch url "POST" (Json.stringify data)]
  | None =>
      exists e, out r = Return (VError e) /\
                events r = [Fetch url "POST" (Json.stringify data);
                            ConsoleLog (VError e)]
  end.
Proof.
  unfold post_json, delivered, Eff.try_catch, Eff.bind, Rt.fetch, Rt.JSON_parse,
    call, Eff.ret, Eff.throw, Rt.console_log, Eff.emit, Js.error.
  destruct (replies w) as [|[msg | status text] rs] eqn:E;
    cbn [out final events tasks agents faults cuid replies tl app].
  - rewrite E. repeat split; eauto.
  - repeat split; eauto.
  - destruct (Rt.ok status); cbn [negb]; destruct (Json.parse text);
      cbn [out final events tasks agents faults cuid replies tl app];
      repeat split; eauto.
Qed.

End Outbound.

(** ** The notifying version, one attempt at a time *)

Module NotifyFacts.
Import Prisma PrismaFacts UpdateFacts Outbound.

(** [if (dbTask.callback)]: the URL to notify, when there is one to
    speak of.  [null] and the empty string are both falsy. *)
Definition callback_url (t : Task.t) : option string :=
  match Task.callback t with
  | Some u => if Js.truthy (Js.str u) then Some u else None
  | None => None
  end.

Lemma callback_url_truthy t :
  Js.truthy (VJson (opt_json (Task.callback t))) =
  match callback_url t with Some _ => true | None => false end.
Proof.
  unfold callback_url. destruct (Task.callback t) as [u|]; cbn; [|reflexivity].
  destruct (negb (u =? "")); reflexivity.
Qed.

Lemma callback_url_spec t u :
  callback_url t = Some u <-> Task.callback t = Some u /\ u <> "".
Proof.
  unfold callback_url. destruct (Task.callback t) as [u'|]; cbn.
  - destruct (String.eqb_spec u' ""); cbn; split.
    + discriminate.
    + intros [[= ->] H]. contradiction.
    + intros [= ->]. auto.
    + intros [[= ->] _]. reflexivity.
  - split; [discriminate | intros [[=] _]].
Qed.

Section Attempt.
Variable accepts : Task.t -> bool.

Definition written (i l o s : value) (t : Task.t) : Task.t :=
  patch t (string_arg s) (string_arg (Js.JSON_stringify l))
        (string_arg (Js.JSON_stringify o)).

Lemma notify_attempt_spec i l o s w :
  let r := CallbackNotify.attempt accepts i l o s w in
  agents (final r) = agents w /\ cuid (final r) = cuid w /\
  ((exists e, out r = Throw e /\ tasks (final r) = tasks w /\
              events r = [Query "task" "update"]) \/
   (exists k t,
       string_arg i = Given k /\ find_task k (tasks w) = Some t /\
       is_invalid (string_arg s) = false /\
       accepts (written i l o s t) = true /\
       tasks (final r) = replace_task (written i l o s t) (tasks w) /\
       ((exists lj oj,
            Json.parse (Task.logs (written i l o s t)) = Some lj /\
            Json.parse (Task.output (written i l o s t)) = Some oj /\
            out r = Return tt /\
            let obj := task_object (written i l o s t) lj oj in
            exists notified,
              events r = (Query "task" "update" :: notified
                          ++ [Respond 200 (Body (VJson obj))])%list /\
              match callback_url (written i l o s t) with
              | Some u =>
                  match delivered w with
                  | Some _ => notified = [Fetch u "POST" (Json.stringify obj)]
                  | None => exists e, notified = [Fetch u "POST" (Json.stringify obj);
                                                  ConsoleLog (VError e)]
                  end
              | None => notified = []
              end) \/
        (exists e,
            (Json.parse (Task.logs (written i l o s t)) = None \/
             Json.parse (Task.output (written i l o s t)) = None) /\
            out r = Throw e /\ events r = [Query "task" "update"])))).
Proof.
  unfold CallbackNotify.attempt.
  pose proof (task_update_spec accepts i s (Js.JSON_stringify l)
                (Js.JSON_stringify o) w) as H.
  cbv zeta in H. destruct H as (Hev & Ha & Hc & Hr & Hcase).
  rewrite bind_run.
  destruct (task_update accepts i s (Js.JSON_stringify l)
              (Js.JSON_stringify o) w) as [ou w1 ev]; cbn [out final events] in *.
  subst ev.
  destruct Hcase as [(e & -> & Ht) | (k & t & Hi & Hf & Hinv & Hacc & -> & Ht)].
  - cbn [out final events]. repeat split; auto. left. eauto.
  - fold (written i l o s t) in *.
    assert (Hs : is_invalid (string_arg s) = false).
    { destruct (is_invalid (string_arg s)); [discriminate Hinv | reflexivity]. }
    remember (written i l o s t) as t' eqn:Et'.
    cbn [out final events].
    unfold Rt.JSON_parse. rewrite !bind_run.
    destruct (Json.parse (Task.logs t')) as [lj|] eqn:Hl; cbn [Eff.ret Eff.throw out final events].
    2:{ repeat split; auto. right. exists k, t. subst t'.
        repeat split; auto. right. eexists. split; [left; exact Hl | auto]. }
    rewrite !bind_run.
    destruct (Json.parse (Task.output t')) as [oj|] eqn:Ho; cbn [Eff.ret Eff.throw out final events].
    2:{ repeat split; auto. right. exists k, t. subst t'.
        repeat split; auto. right. eexists. split; [right; exact Ho | auto]. }
    rewrite callback_url_truthy.
    rewrite !bind_run.
    assert (Hd1 : delivered w1 = delivered w) by (unfold delivered; now rewrite Hr).
    destruct (callback_url t') as [u|] eqn:Hu.
    + apply callback_url_spec in Hu as Hu'. destruct Hu' as [Hcb _]. rewrite Hcb.
      rewrite bind_run, fireCallback_post_json.
      pose proof (post_json_spec u "Failed to make callback call"
                    (task_object t' lj oj) w1) as HP.
      cbv zeta in HP. destruct HP as (Pt & Pa & Pf & Pc & _ & Pout).
      destruct (post_json u "Failed to make callback call" (task_object t' lj oj)
                  None None w1) as [ov w2 ev2]; cbn [out final events] in *.
      assert (Hov : exists v, ov = Return v).
      { destruct (delivered w1); [destruct Pout as [-> _] | destruct Pout as (e & -> & _)]; eauto. }
      destruct Hov as (v & ->).
      unfold Eff.bind, Eff.ret, Rt.respond, Eff.emit. cbn [out final events].
      split; [congruence | split; [congruence|]].
      right. exists k, t.
      split; [exact Hi | split; [exact Hf | split; [exact Hs|]]].
      split; [subst t'; exact Hacc|].
      split; [subst t'; cbn; congruence|].
      left. exists lj, oj.
      split; [subst t'; exact Hl | split; [subst t'; exact Ho|]].
      split; [reflexivity|].
      exists ev2. rewrite <- Et', Hu, <- Hd1.
      split; [cbn [app]; now rewrite List.app_nil_r|].
      destruct (delivered w1); [now destruct Pout|].
      destruct Pout as (e & _ & ->). eauto.
    + unfold Eff.bind, Eff.ret, Rt.respond, Eff.emit. cbn [out final events].
      split; [congruence | split; [congruence|]].
      right. exists k, t.
      split; [exact Hi | split; [exact Hf | split; [exact Hs|]]].
      split; [subst t'; exact Hacc|].
      split; [subst t'; cbn; congruence|].
      left. exists lj, oj.
      split; [subst t'; exact Hl | split; [subst t'; exact Ho|]].
      split; [reflexivity|].
      exists []. rewrite <- Et', Hu. auto.
Qed.

Lemma notify_attempt_one_try i l o s w :
  Loop.one_try (CallbackNotify.attempt accepts i l o s w).
Proof.
  destruct (notify_attempt_spec i l o s w) as (_ & _ & [(e & Ho & _ & Hev) | (k & t & _ & _ & _ & _ & _ & Hc)]).
  - unfold Loop.one_try. rewrite Hev, Ho. cbn. eauto.
  - destruct Hc as [(lj & oj & _ & _ & Ho & nt & Hev & Hnt) | (e & _ & Ho & Hev)];
      unfold Loop.one_try.
    + rewrite Hev, Ho. cbn [timeline responses].
      rewrite timeline_app, responses_app. cbn.
      assert (timeline nt = [] /\ responses nt = []) as [-> ->].
      { destruct (callback_url _); [|subst; auto].
        destruct (delivered w); [subst; auto | destruct Hnt as (e & ->); auto]. }
      cbn. eauto.
    + rewrite Hev, Ho. cbn. eauto.
Qed.

Lemma notify_attempt_changes i l o s w :
  Table.changes (fun t => accepts t = true) (tasks w)
                (tasks (final (CallbackNotify.attempt accepts i l o s w))).
Proof.
  destruct (notify_attempt_spec i l o s w) as (_ & _ & [(e & _ & Ht & _) | (k & t & _ & Hf & _ & Hacc & Ht & _)]);
    rewrite Ht; [constructor|].
  apply Table.changes_one. eapply Table.change_replace; [|exact Hacc].
  unfold written. rewrite patch_id, (Table.find_task_id _ _ _ Hf). exact Hf.
Qed.

End Attempt.
End NotifyFacts.

Module LoopEvents.


End LoopEvents.

Module NotifyHandler.
Import Prisma PrismaFacts NotifyFacts.

Section Handler.
Variable accepts : Task.t -> bool.

Lemma notify_handler_cases req w :
  (nullish (body req) /\
   exists e, CallbackNotify.handler accepts req w = mkResult (Throw e) w []) \/
  (exists i l o s,
      fields_of (body req) i l o s /\
      CallbackNotify.handler accepts req w =
      retry 5 (CallbackNotify.attempt accepts i l o s) w).
Proof.
  unfold CallbackNotify.handler. rewrite bind_run.
  destruct (Loop.destructure_spec (body req) w) as (Hf & Hev & [(e & Ho & Hn) | (i & l & o & s & H1 & H2 & H3 & H4 & Ho)]).
  - left. split; [exact Hn|]. exists e.
    destruct (destructure (body req) w) as [ou f ev]; cbn in *. now subst.
  - right. exists i, l, o, s. split; [repeat split; assumption|].
    destruct (destructure (body req) w) as [ou f ev]; cbn in *. subst.
    apply result_eta.
Qed.

Lemma attempt_throw_quiet i l o s w e :
  out (CallbackNotify.attempt accepts i l o s w) = Throw e ->
  posts (events (CallbackNotify.attempt accepts i l o s w)) = [].
Proof.
  intros Hthrow.
  destruct (notify_attempt_spec accepts i l o s w) as (_ & _ & [(e' & _ & _ & Hev) | (k & t & _ & _ & _ & _ & _ & Hc)]).
  - now rewrite Hev.
  - destruct Hc as [(lj & oj & _ & _ & Ho & _) | (e' & _ & _ & Hev)];
      [congruence | now rewrite Hev].
Qed.

End Handler.
End NotifyHandler.

(** ** Computations that do not depend on what [fetch] meets *)

Module Deaf.
Import Prisma.

(** Two worlds that agree on everything but the answers to [fetch]. *)
Definition agree (w w' : world) : Prop :=
  tasks w = tasks w' /\ agents w = agents w' /\
  faults w = faults w' /\ cuid w = cuid w'.





















End Deaf.

(** ** The registry seed *)

Module SeedFacts.
Import Json.

Lemma lookup_obj_set k k' v o :
  lookup k (obj_set k' v o) = if String.eqb k k' then Some v else lookup k o.
Proof.
  induction o as [|[k0 v0] o IH]; simpl.
  - destruct (String.eqb k k'); reflexivity.
  - destruct (String.eqb_spec k' k0) as [->|N]; simpl.
    + destruct (String.eqb k k0); reflexivity.
    + rewrite IH. destruct (String.eqb_spec k k0) as [->|N'];
        destruct (String.eqb_spec k0 k') as [E|N'']; try reflexivity.
      congruence.
Qed.

Lemma lookup_In k o : lookup k o <> None <-> In k (map fst o).
Proof.
  induction o as [|[k0 v0] o IH]; simpl; [tauto|].
  destruct (String.eqb_spec k k0) as [->|N].
  - split; [auto | discriminate].
  - rewrite IH. split; [auto | intros [E|H]; [congruence | exact H]].
Qed.

Lemma lookup_not_In k o : ~ In k (map fst o) -> lookup k o = None.
Proof.
  intros H. destruct (lookup k o) eqn:E; [|reflexivity].
  exfalso. apply H, lookup_In. congruence.
Qed.

(** One pass of the loop body on an object. *)
Definition assign (fs : list (string * json)) (kv : string * json)
  : list (string * json) :=
  if String.eqb (fst kv) "__proto__" && negb (Prop_.has (fst kv) fs)
  then fs else obj_set (fst kv) (snd kv) fs.

(** The keys an assignment can write: all but [__proto__], unless the
    object has an own property of that name. *)
Definition writable (fs : list (string * json)) (k : string) : bool :=
  negb (String.eqb k "__proto__") || Prop_.has k fs.

Lemma has_assign k fs kv : Prop_.has k (assign fs kv) = Prop_.has k fs || (String.eqb k (fst kv) && writable fs k).
Proof.
  unfold assign, writable, Prop_.has. destruct kv as [k' v]; cbn [fst snd].
  destruct (String.eqb_spec k' "__proto__") as [->|N]; cbn [andb].
  - destruct (lookup "__proto__" fs) eqn:E; cbn [negb].
    + rewrite lookup_obj_set. destruct (String.eqb_spec k "__proto__") as [->|]; cbn.
      * now rewrite E.
      * now rewrite orb_false_r.
    + destruct (String.eqb_spec k "__proto__") as [->|]; cbn.
      * now rewrite E.
      * now rewrite orb_false_r.
  - rewrite lookup_obj_set. destruct (String.eqb_spec k k') as [->|N']; cbn.
    + destruct (String.eqb_spec k' "__proto__"); [contradiction|]. cbn.
      now rewrite orb_true_r.
    + now rewrite orb_false_r.
Qed.

Lemma writable_assign k fs kv : writable (assign fs kv) k = writable fs k.
Proof.
  unfold writable at 1. rewrite has_assign. unfold writable.
  destruct (negb (k =? "__proto__")); cbn; [reflexivity|].
  destruct (Prop_.has k fs); cbn; [reflexivity|].
  now rewrite andb_false_r.
Qed.

Lemma lookup_assign k fs kv :
  lookup k (assign fs kv) =
  if String.eqb k (fst kv) && writable fs k then Some (snd kv) else lookup k fs.
Proof.
  unfold assign, writable, Prop_.has. destruct kv as [k' v]; cbn [fst snd].
  destruct (String.eqb_spec k k') as [->|N]; cbn [andb].
  - destruct (String.eqb_spec k' "__proto__") as [->|N']; cbn [negb orb andb].
    + destruct (lookup "__proto__" fs) eqn:E; cbn [negb].
      * now rewrite lookup_obj_set, String.eqb_refl.
      * exact E.
    + now rewrite lookup_obj_set, String.eqb_refl.
  - destruct (String.eqb k' "__proto__" && _); [reflexivity|].
    rewrite lookup_obj_set. now destruct (String.eqb_spec k k').
Qed.

(** The loop over the entries of an object, on an object. *)
Lemma populate_object input entries fs :
  (forall kv, In kv entries -> Prop_.hasOwnProperty input (fst kv) = true) ->
  RunWorkflow.populate input entries (JObj fs) = Return (JObj (fold_left assign entries fs)).
Proof.
  revert fs. induction entries as [|[k v] entries IH]; intros fs Hown; [reflexivity|].
  cbn [RunWorkflow.populate]. pose proof (Hown (k, v) (or_introl eq_refl)) as Hk.
  cbn [fst] in Hk. rewrite Hk.
  cbn [Prop_.set_property fold_left]. fold (Prop_.has k fs).
  assert (E : (if String.eqb k "__proto__" && negb (Prop_.has k fs)
               then Return (JObj fs) else Return (JObj (obj_set k v fs)))
              = Return (JObj (assign fs (k, v)))).
  { unfold assign. cbn [fst snd]. now destruct (String.eqb k "__proto__" && _). }
  rewrite E. apply IH. intros kv Hin. apply Hown. now right.
Qed.

Lemma lookup_fold_assign k entries fs :
  NoDup (map fst entries) ->
  lookup k (fold_left assign entries fs) =
  match lookup k entries with
  | Some v => if writable fs k then Some v else lookup k fs
  | None => lookup k fs
  end.
Proof.
  revert fs. induction entries as [|[k' v] entries IH]; intros fs Hnd; [reflexivity|].
  cbn [fold_left map fst] in *. inversion Hnd as [|? ? Hk Hnd']; subst.
  rewrite (IH _ Hnd'), lookup_assign, writable_assign. cbn [lookup fst snd].
  destruct (String.eqb_spec k k') as [->|N]; cbn [andb].
  - rewrite (lookup_not_In k' entries Hk). reflexivity.
  - reflexivity.
Qed.

(** The seed of an object registry under an object input. *)
Lemma seed_object vars inp :
  RunWorkflow.seed (JObj vars) (VJson (JObj inp))
  = Return (JObj (fold_left assign inp vars)).
Proof.
  unfold RunWorkflow.seed. apply populate_object.
  intros [k v] Hin. unfold Prop_.hasOwnProperty. cbn [Prop_.own_enumerable fst].
  apply existsb_exists. exists k. split; [|apply String.eqb_refl].
  apply in_map_iff. exists (k, v). auto.
Qed.

End SeedFacts.

(** ** The workflow-run handler, step by step *)

Lemma bind_ret {A B} (a : A) (k : A -> M B) w : Eff.bind (Eff.ret a) k w = k a w.
Proof. rewrite bind_run. cbn. apply result_eta. Qed.

Lemma bind_lift_return {A B} (a : A) (k : A -> M B) w :
  Eff.bind (Eff.lift (Return a)) k w = k a w.
Proof. rewrite bind_run. cbn. apply result_eta. Qed.

Lemma bind_lift_throw {A B} e (k : A -> M B) w :
  Eff.bind (Eff.lift (Throw e)) k w = mkResult (Throw e) w [].
Proof. reflexivity. Qed.

Lemma bind_throw {A B} e (k : A -> M B) w :
  Eff.bind (Eff.throw e) k w = mkResult (Throw e) w [].
Proof. reflexivity. Qed.

Module RunFacts.
Import Prisma PrismaFacts Outbound.

Section Handler.
Variable accepts : Task.t -> bool.
Variable endpoint : string.

(** The end of the handler, from the engine's answer on. *)
Definition persist (agent : Agent.t) (response : value) : M unit :=
  if Js.instanceof_Error response then
    Rt.respond 500 (Message response)
  else
    id <- Eff.lift (Rt.get_prop response "id") ;;
    status <- Eff.lift (Rt.get_prop response "status") ;;
    logs <- Eff.lift (Rt.get_prop response "logs") ;;
    output <- Eff.lift (Rt.get_prop response "output") ;;
    task <- Prisma.task_create accepts id (Js.str (Agent.id agent)) status
              (Js.JSON_stringify logs) (Js.JSON_stringify output) ;;
    Rt.respond 201 (Body response).

(** The handler once the agent is found. *)
Definition engage (input : value) (agent : Agent.t) : M unit :=
  variables <- Rt.JSON_parse (Agent.variables agent) ;;
  workflow <- Rt.JSON_parse (Agent.workflow agent) ;;
  variables' <- Eff.lift (RunWorkflow.seed variables input) ;;
  response <- RunWorkflow.runAgent endpoint
                (RunWorkflow.workflowAgent agent variables' workflow) None None ;;
  persist agent response.

Lemma handler_unfold req :
  RunWorkflow.handler accepts endpoint req =
  (input <- Eff.lift (Rt.get_prop (body req) "input") ;;
   agent <- Prisma.agent_findUnique (query_param req "agentId") ;;
   match agent with
   | None => Rt.respond 404 (Message (Js.str "Agent not found"))
   | Some agent => engage input agent
   end).
Proof. reflexivity. Qed.

(** The row the handler asks Prisma to create for [response]. *)
Definition row_for (fresh : string) (agent : Agent.t) (response : value)
  : option Task.t :=
  match Rt.get_prop response "id", Rt.get_prop response "status",
        Rt.get_prop response "logs", Rt.get_prop response "output" with
  | Return i, Return st, Return lg, Return ou =>
      new_row fresh (string_arg i) (Given (Agent.id agent)) (string_arg st)
              (string_arg (Js.JSON_stringify lg)) (string_arg (Js.JSON_stringify ou))
  | _, _, _, _ => None
  end.

Lemma persist_spec agent response w :
  let r := persist agent response w in
  agents (final r) = agents w /\ posts (events r) = [] /\
  ((Js.instanceof_Error response = true /\ out r = Return tt /\
    tasks (final r) = tasks w /\ events r = [Respond 500 (Message response)]) \/
   (Js.instanceof_Error response = false /\
    ((exists e, out r = Throw e /\ tasks (final r) = tasks w /\
                responses (events r) = []) \/
     (exists t,
         row_for (cuid w) agent response = Some t /\ accepts t = true /\
         find_task (Task.id t) (tasks w) = None /\
         tasks (final r) = (tasks w ++ [t])%list /\ out r = Return tt /\
         events r = [Query "task" "create"; Respond 201 (Body response)])))).
Proof.
  unfold persist, row_for.
  destruct (Js.instanceof_Error response) eqn:Herr.
  { cbn. auto 10. }
  unfold Eff.lift. rewrite bind_run. cbn [out final events].
  destruct (Rt.get_prop response "id") as [i|e]; cbn [out final events app].
  2:{ repeat split; auto. right. split; [reflexivity|]. left. eauto. }
  rewrite bind_run. cbn [out final events].
  destruct (Rt.get_prop response "status") as [st|e]; cbn [out final events app].
  2:{ repeat split; auto. right. split; [reflexivity|]. left. eauto. }
  rewrite bind_run. cbn [out final events].
  destruct (Rt.get_prop response "logs") as [lg|e]; cbn [out final events app].
  2:{ repeat split; auto. right. split; [reflexivity|]. left. eauto. }
  rewrite bind_run. cbn [out final events].
  destruct (Rt.get_prop response "output") as [ou|e]; cbn [out final events app].
  2:{ repeat split; auto. right. split; [reflexivity|]. left. eauto. }
  rewrite bind_run.
  pose proof (task_create_spec accepts i (Js.str (Agent.id agent)) st
                (Js.JSON_stringify lg) (Js.JSON_stringify ou) w) as H.
  cbv zeta in H. destruct H as (Hev & Ha & Hc & Hr & Hcase).
  destruct (task_create accepts i (Js.str (Agent.id agent)) st
              (Js.JSON_stringify lg) (Js.JSON_stringify ou) w) as [o1 w1 ev1];
    cbn [out final events] in *. subst ev1.
  destruct Hcase as [(e & -> & Ht) | (t & Hnew & Hacc & Hf & -> & Ht)];
    cbn [out final events app Rt.respond Eff.emit posts].
  - repeat split; auto. right. split; [reflexivity|]. left. eauto.
  - repeat split; auto. right. split; [reflexivity|]. right. exists t. auto 10.
Qed.

(** Every way the handler can go once the agent is found. *)
Lemma engage_spec input agent w :
  let r := engage input agent w in
  agents (final r) = agents w /\
  ((exists e, out r = Throw e /\ tasks (final r) = tasks w /\ events r = [] /\
              (Json.parse (Agent.variables agent) = None \/
               Json.parse (Agent.workflow agent) = None \/
               exists v, Json.parse (Agent.variables agent) = Some v /\
                         RunWorkflow.seed v input = Throw e)) \/
   (exists v wf v',
       Json.parse (Agent.variables agent) = Some v /\
       Json.parse (Agent.workflow agent) = Some wf /\
       RunWorkflow.seed v input = Return v' /\
       exists evs,
         events r = Fetch (endpoint ++ "/api/task") "POST"
                          (Json.stringify (RunWorkflow.workflowAgent agent v' wf))
                    :: evs /\
         posts evs = [] /\
         match delivered w with
         | None =>
             exists e, out r = Return tt /\ tasks (final r) = tasks w /\
                       evs = [ConsoleLog (VError e); Respond 500 (Message (VError e))]
         | Some d =>
             (exists e, out r = Throw e /\ tasks (final r) = tasks w /\
                        responses evs = []) \/
             (exists t,
                 row_for (cuid w) agent (VJson d) = Some t /\ accepts t = true /\
                 find_task (Task.id t) (tasks w) = None /\
                 tasks (final r) = (tasks w ++ [t])%list /\ out r = Return tt /\
                 evs = [Query "task" "create"; Respond 201 (Body (VJson d))])
         end)).
Proof.
  unfold engage, Rt.JSON_parse.
  destruct (Json.parse (Agent.variables agent)) as [v|] eqn:Hv;
    [rewrite bind_ret | rewrite bind_throw; cbn; split; [reflexivity|]; left; eauto 10].
  destruct (Json.parse (Agent.workflow agent)) as [wf|] eqn:Hwf;
    [rewrite bind_ret | rewrite bind_throw; cbn; split; [reflexivity|]; left; eauto 10].
  destruct (RunWorkflow.seed v input) as [v'|e] eqn:Hseed;
    [rewrite bind_lift_return
    | rewrite bind_lift_throw; cbn; split; [reflexivity|]; left; eauto 10].
  rewrite bind_run, runAgent_post_json.
  pose proof (post_json_spec (endpoint ++ "/api/task") "Failed to start agent task"
                (RunWorkflow.workflowAgent agent v' wf) w) as HP.
  cbv zeta in HP. destruct HP as (Pt & Pa & Pf & Pc & _ & Pout).
  destruct (post_json (endpoint ++ "/api/task") "Failed to start agent task"
              (RunWorkflow.workflowAgent agent v' wf) None None w) as [o1 w1 ev1];
    cbn [out final events] in *.
  destruct (delivered w) as [d|] eqn:Hd.
  - destruct Pout as [-> ->]. cbn [out final events app].
    pose proof (persist_spec agent (VJson d) w1) as HS. cbv zeta in HS.
    destruct HS as (Sa & Sp & [(Herr & _) | (_ & Hcase)]); [discriminate Herr|].
    split; [congruence|]. right. exists v, wf, v'. repeat split; auto.
    exists (events (persist agent (VJson d) w1)). split; [reflexivity|].
    split; [exact Sp|].
    destruct Hcase as [(e & Ho & Ht & Hr) | (t & Hrow & Hacc & Hf & Ht & Ho & Hev)].
    + left. exists e. repeat split; congruence.
    + right. exists t. rewrite <- Pc, <- Pt. repeat split; auto; congruence.
  - destruct Pout as (e & -> & ->). cbn [out final events app].
    pose proof (persist_spec agent (VError e) w1) as HS. cbv zeta in HS.
    destruct HS as (Sa & Sp & [(_ & Ho & Ht & Hev) | (Herr & _)]); [|discriminate Herr].
    split; [congruence|]. right. exists v, wf, v'. repeat split; auto.
    eexists. split; [reflexivity|]. rewrite Hev. split; [reflexivity|].
    exists e. repeat split; congruence.
Qed.

(** Every way the handler can go. *)
Lemma handler_spec req w :
  let r := RunWorkflow.handler accepts endpoint req w in
  agents (final r) = agents w /\
  ((exists e, out r = Throw e /\ tasks (final r) = tasks w /\
              responses (events r) = [] /\ posts (events r) = []) \/
   (out r = Return tt /\ tasks (final r) = tasks w /\
    events r = [Query "agent" "findUnique";
                Respond 404 (Message (Js.str "Agent not found"))]) \/
   (exists input k agent w1,
       Rt.get_prop (body req) "input" = Return input /\
       string_arg (query_param req "agentId") = Given k /\
       find_agent k (agents w) = Some agent /\
       tasks w1 = tasks w /\ cuid w1 = cuid w /\ replies w1 = replies w /\
       agents w1 = agents w /\
       out r = out (engage input agent w1) /\
       final r = final (engage input agent w1) /\
       events r = Query "agent" "findUnique" :: events (engage input agent w1))).
Proof.
  rewrite handler_unfold.
  destruct (Rt.get_prop (body req) "input") as [input|e] eqn:Hin;
    [rewrite bind_lift_return
    | rewrite bind_lift_throw; cbn; split; [reflexivity|]; left; eauto 10].
  rewrite bind_run.
  pose proof (agent_findUnique_spec (query_param req "agentId") w) as H.
  cbv zeta in H. destruct H as (Hev & Ht & Ha & Hc & Hr & Hcase).
  destruct (agent_findUnique (query_param req "agentId") w) as [o1 w1 ev1];
    cbn [out final events] in *. subst ev1.
  destruct Hcase as [(e & ->) | (k & Hk & ->)]; cbn [out final events app].
  - split; [exact Ha|]. left. eauto 10.
  - destruct (find_agent k (agents w)) as [agent|] eqn:Hf.
    + pose proof (engage_spec input agent w1) as [Ea _].
      split; [congruence|]. right. right.
      exists input, k, agent, w1. repeat split; auto.
    + cbn. split; [exact Ha|]. right. left. auto.
Qed.

Lemma handler_changes req w :
  Table.changes (fun t => accepts t = true) (tasks w)
                (tasks (final (RunWorkflow.handler accepts endpoint req w))).
Proof.
  destruct (handler_spec req w) as (_ & [(e & _ & -> & _) | [(_ & -> & _) | (input & k & agent & w1 & _ & _ & _ & Ht & Hc & _ & _ & _ & -> & _)]]);
    try constructor.
  rewrite <- Ht.
  destruct (engage_spec input agent w1) as (_ & [(e & _ & -> & _) | (v & wf & v' & _ & _ & _ & evs & _ & _ & Hd)]);
    [constructor|].
  destruct (delivered w1).
  - destruct Hd as [(e & _ & -> & _) | (t & _ & Hacc & Hf & -> & _)]; [constructor|].
    apply Table.changes_one. now apply Table.change_append.
  - destruct Hd as (e & _ & -> & _). constructor.
Qed.

End Handler.
End RunFacts.

(** ** More on the loop and on what a write keeps *)

Module Keep.
Import Prisma UpdateFacts.








(** The events of a run of the loop, with an invariant carried over
    the attempts that failed. *)
Lemma retry_outcome_inv (I : world -> Prop) n (attempt : M unit) :
  (forall w, Loop.one_try (attempt w)) ->
  (forall w e, out (attempt w) = Throw e -> posts (events (attempt w)) = []) ->
  (forall w e, I w -> out (attempt w) = Throw e -> I (final (attempt w))) ->
  forall w, I w ->
    let r := retry n attempt w in
    (responses (events r) = [Loop.gave_up] /\ posts (events r) = []) \/
    (exists w' pre,
        I w' /\
        out (attempt w') = Return tt /\ final r = final (attempt w') /\
        events r = (pre ++ events (attempt w'))%list /\
        posts pre = [] /\ responses pre = []).
Proof.
  intros Hone Hquiet Hinv. induction n as [|n IH]; intros w HI.
  - left. cbn. auto.
  - cbv zeta. rewrite Loop.retry_S.
    destruct (Hone w) as (_ & [(b & Ho & Hr) | (e & Ho & Hr)]); rewrite Ho.
    + right. exists w, []. auto 10.
    + cbn [out final events].
      destruct (IH (final (attempt w)) (Hinv w e HI Ho))
        as [(Hr' & Hp') | (w' & pre & HI' & Ho' & Hf' & Hev' & Hp' & Hr')].
      * left. rewrite responses_app, posts_app, Hr, (Hquiet w e Ho). cbn. auto.
      * right. exists w', (events (attempt w) ++ Snooze 2000 :: ConsoleLog e :: pre)%list.
        split; [exact HI'|]. split; [exact Ho'|]. split; [exact Hf'|].
        rewrite Hev', posts_app, responses_app, Hr, (Hquiet w e Ho). cbn.
        rewrite <- List.app_assoc. cbn. auto.
Qed.

Lemma changes_In (P : Task.t -> Prop) ts us t :
  Table.changes P ts us -> In t us -> In t ts \/ P t.
Proof.
  induction 1 as [|us vs _ IH Hc]; [auto|]. intros Hin.
  destruct Hc as [x x' Hf Hp | x Hf Hp].
  - assert (Hcase : In t us \/ t = x').
    { clear -Hin. induction us as [|y us IHu]; simpl in *; [tauto|].
      destruct (String.eqb (Task.id y) (Task.id x')); simpl in Hin.
      - destruct Hin as [<- | Hin]; auto.
      - destruct Hin as [<- | Hin]; [auto|]. destruct (IHu Hin); auto. }
    destruct Hcase as [H1 | ->]; auto.
  - apply in_app_or in Hin as [H1 | [<- | []]]; auto.
Qed.

End Keep.

(** ** The read handler *)

Module GetFacts.
Import Prisma PrismaFacts.

(** The database answers the next call. *)
Definition reachable_db (w : world) : Prop :=
  faults w = [] \/ exists fs, faults w = false :: fs.

Lemma connect_ok model op w :
  reachable_db w ->
  connect model op w =
  mkResult (Return tt)
           (mkWorld (tasks w) (agents w) (tl (faults w)) (replies w) (cuid w))
           [Query model op].
Proof.
  unfold connect, reachable_db. destruct w as [ts ags fs rs c]; cbn.
  intros [E | (fs' & E)]; subst fs; reflexivity.
Qed.

Lemma handler_tasks req w : tasks (final (TaskGet.handler req w)) = tasks w.
Proof.
  unfold TaskGet.handler, Eff.try_catch. rewrite bind_run.
  pose proof (task_findUnique_spec (query_param req "taskId") w) as H.
  cbv zeta in H. destruct H as (Hev & Ht & Ha & Hc & Hr & Hcase).
  destruct (task_findUnique (query_param req "taskId") w) as [o1 w1 ev1];
    cbn [out final events] in *.
  destruct Hcase as [(e & ->) | (k & Hk & ->)]; cbn [out final events]; [exact Ht|].
  destruct (find_task k (tasks w)) as [t|]; [|exact Ht].
  unfold Rt.JSON_parse.
  destruct (Json.parse (Task.logs t)); [rewrite bind_ret | rewrite bind_throw; exact Ht].
  destruct (Json.parse (Task.output t)); [rewrite bind_ret | rewrite bind_throw; exact Ht].
  exact Ht.
Qed.


End GetFacts.

(** * The delivery loop is bounded (C2) *)






(** * A delivery that gives up wrote nothing (C6) *)


Module GiveUp.
Import Prisma UpdateFacts.

Section Handler.
Variable accepts : Task.t -> bool.





End Handler.
End GiveUp.


(** A delivery for a row the database cannot be reached for. *)
Definition sample_delivery : request :=
  mkRequest
    (VJson (JObj [("id", JStr "t1"); ("logs", JArr [JStr "done"]);
                  ("output", JObj [("answer", JNum 42)]);
                  ("status", JStr "complete")]))
    [].

Definition sample_row : Task.t :=
  Task.mk "t1" (Some "a1") "[]" "{}" (Some "running") None.

Definition unreachable_world : world :=
  mkWorld [sample_row] [] [true; true; true; true; true] [] "c1".


(** * Repeated delivery (C1) *)


Module Redelivery.
Import Prisma.

Section Handlers.
Variable accepts : Task.t -> bool.

Lemma update_changes req w :
  Table.changes (fun t => accepts t = true) (tasks w)
                (tasks (final (CallbackTask.handler accepts req w))).
Proof.
  destruct (UpdateHandler.update_handler_cases accepts req w)
    as [(_ & e & ->) | (i & l & o & s & _ & ->)]; [constructor|].
  apply Loop.retry_changes. intros w'. apply UpdateFacts.update_attempt_changes.
Qed.

Lemma upsert_changes req w :
  exists o, (nullish (body req) \/ Rt.get_prop (body req) "output" = Return o) /\
  Table.changes (fun t => accepts t = true /\ o = Js.str (Task.output t)) (tasks w)
                (tasks (final (CallbackUpsert.handler accepts req w))).
Proof.
  destruct (UpsertHandler.upsert_handler_cases accepts req w)
    as [(Hn & e & ->) | (i & l & o & s & (_ & _ & Ho & _) & ->)].
  - exists VUndefined. split; [auto | constructor].
  - exists o. split; [auto|].
    apply Loop.retry_changes. intros w'. apply UpsertFacts.upsert_attempt_changes.
Qed.





End Handlers.
End Redelivery.


Definition live_world : world := mkWorld [sample_row] [] [] [] "c1".

Definition empty_world : world := mkWorld [] [] [] [] "c1".




(** * The guard of the upsert version (C10) *)

(** C10.  [!output instanceof String] is false whatever [output] is
    (a JSON value, [undefined], an [Error] or a [String] object): the
    handler runs as if the guard and its assignment were not there,
    and every row it writes holds [output] as the request body
    carried it, a string that was never passed to [JSON.stringify]. *)
Theorem output_guard_never_holds
        (accepts : Task.t -> bool) (req : request) (w : world) :
  (forall output : value, CallbackUpsert.guard output = false) /\
  CallbackUpsert.handler accepts req w
  = ('(id, logs, output, _) <- destructure (body req) ;;
     retry 5 (CallbackUpsert.attempt accepts id logs output))%eff w /\
  (forall t, In t (tasks (final (CallbackUpsert.handler accepts req w))) ->
             In t (tasks w) \/
             Rt.get_prop (body req) "output" = Return (Js.str (Task.output t))).
Proof.
  split; [reflexivity|]. split.
  - unfold CallbackUpsert.handler. rewrite !bind_run.
    destruct (destructure (body req) w) as [[[[[i l] o] s]|e] w1 ev];
      cbn [out final events]; [|reflexivity].
    rewrite bind_run. reflexivity.
  - intros t Hin.
    destruct (UpsertHandler.upsert_handler_cases accepts req w)
      as [(_ & e & E) | (i & l & o & s & (_ & _ & Ho & _) & E)];
      rewrite E in Hin; [now left|].
    destruct (Keep.changes_In
                (fun t => accepts t = true /\ o = Js.str (Task.output t))
                (tasks w) _ t
                (Loop.retry_changes _ 5 _
                   (fun w' => UpsertFacts.upsert_attempt_changes accepts i l o w') w)
                Hin) as [H | (_ & ->)]; [now left | now right].
Qed.

(** * The engine call (C9) *)






(** * The status column (C7) *)

Module Invariant.
Import Prisma.

(** A status of the enum [Status]. *)
Definition status_ok (t : Task.t) : Prop :=
  Task.status t = Some "running" \/ Task.status t = Some "complete" \/
  Task.status t = Some "error".

Definition status_okb (t : Task.t) : bool :=
  match Task.status t with
  | Some s => is_Status s
  | None => false
  end.

Lemma status_okb_spec t : status_okb t = true <-> status_ok t.
Proof.
  unfold status_okb, status_ok, is_Status, Status.
  destruct (Task.status t) as [s|]; cbn.
  - destruct (String.eqb_spec s "running") as [->|N1]; [tauto|].
    destruct (String.eqb_spec s "complete") as [->|N2]; [tauto|].
    destruct (String.eqb_spec s "error") as [->|N3]; [tauto|].
    split; [discriminate | intros [H | [H | H]]; congruence].
  - split; [discriminate | intros [H | [H | H]]; discriminate].
Qed.

Lemma schema_accepts_status t : schema_accepts t = true -> status_ok t.
Proof.
  intros H. apply status_okb_spec. unfold schema_accepts in H. unfold status_okb.
  destruct (Task.agentId t); [|discriminate].
  destruct (Task.status t); [exact H | discriminate].
Qed.

(** The routes that reach the Task table, each with its request; the
    run route also with the engine's address. *)
Inductive operation : Type :=
| RunAgent (endpoint : string) (req : request)
| GetTask (req : request)
| Deliver (req : request)
| DeliverUpsert (req : request)
| DeliverNotify (req : request).

Definition exec (op : operation) : M unit :=
  match op with
  | RunAgent endpoint req => RunWorkflow.handler schema_accepts endpoint req
  | GetTask req => TaskGet.handler req
  | Deliver req => CallbackTask.handler schema_accepts req
  | DeliverUpsert req => CallbackUpsert.handler schema_accepts req
  | DeliverNotify req => CallbackNotify.handler schema_accepts req
  end.

(** The stores the routes can bring about: from an empty Task table,
    any request to any route, in a surrounding (agents, database
    faults, replies of the network) that changes at will between
    requests. *)
Inductive reachable : world -> Prop :=
| reach_empty w : tasks w = [] -> reachable w
| reach_request op w : reachable w -> reachable (final (exec op w))
| reach_surrounding w w' : reachable w -> tasks w' = tasks w -> reachable w'.

Lemma exec_changes op w :
  Table.changes (fun t => schema_accepts t = true) (tasks w)
                (tasks (final (exec op w))).
Proof.
  destruct op as [endpoint req | req | req | req | req]; cbn [exec].
  - apply RunFacts.handler_changes.
  - rewrite GetFacts.handler_tasks. constructor.
  - apply Redelivery.update_changes.
  - destruct (Redelivery.upsert_changes schema_accepts req w) as (o & _ & H).
    eapply Table.changes_weaken; [|exact H]. now intros t [Ht _].
  - destruct (NotifyHandler.notify_handler_cases schema_accepts req w)
      as [(_ & e & ->) | (i & l & o & s & _ & ->)]; [constructor|].
    apply Loop.retry_changes. intros w'. apply NotifyFacts.notify_attempt_changes.
Qed.

End Invariant.

(** C7.  In every store the routes can bring about, each Task row has
    a status, and it is [running], [complete] or [error]: every write
    goes through Prisma under the schema of the Task model, which
    refuses any other value. *)
Theorem status_is_always_of_the_enum (w : world) :
  Invariant.reachable w -> Forall Invariant.status_ok (tasks w).
Proof.
  induction 1 as [w E | op w _ IH | w w' _ IH E].
  - rewrite E. constructor.
  - eapply Table.changes_Forall; [|exact IH].
    eapply Table.changes_weaken; [|apply Invariant.exec_changes].
    exact Invariant.schema_accepts_status.
  - now rewrite E.
Qed.

Definition sample_agent : Agent.t :=
  Agent.mk "a1" "guide" (Some "answers questions")
           (Json.stringify (JObj [("topic", JStr "tea"); ("tone", JStr "plain")]))
           (Json.stringify (JArr [JObj [("type", JStr "prompt")]])).

Definition run_request : request :=
  mkRequest (VJson (JObj [("input", JObj [("topic", JStr "coffee")])]))
            [("agentId", JStr "a1")].

Definition engine_task : json :=
  JObj [("id", JStr "t9"); ("logs", JArr [JStr "start"; JStr "end"]);
        ("output", JObj [("answer", JNum 42)]); ("status", JStr "complete")].

Definition run_world : world :=
  mkWorld [] [sample_agent] [] [HttpResponse 200 (Json.stringify engine_task)] "c1".

Lemma status_witness :
  Forall Invariant.status_ok
         (tasks (final (Invariant.exec (Invariant.RunAgent "http://engine" run_request)
                                       run_world))) /\
  map Task.status
      (tasks (final (Invariant.exec (Invariant.RunAgent "http://engine" run_request)
                                    run_world))) = [Some "complete"].
Proof.
  split; [|vm_compute; reflexivity].
  apply status_is_always_of_the_enum.
  apply Invariant.reach_request, Invariant.reach_empty. reflexivity.
Defined.

(** * What [JSON.parse] returns

    A parsed value is well formed: [JSON.parse] keeps one property per
    name.  The values a handler receives (a request body, the body of
    an engine reply, a column parsed back) are all of this kind. *)

Module ParseFacts.
Import Json.








End ParseFacts.

(** * A task created by a run, read back *)

Module ReadBack.
Import Prisma.





End ReadBack.



(** * The registry seed of a run *)

(** The loop over the keys of the input, on stored variables that are
    an object: a key of the input takes the caller's value, a key the
    input lacks keeps the stored one.  The one exception is the key
    [__proto__]: unless the stored object has an own property of that
    name, the assignment reaches the inherited setter and the seed
    gets no such property. *)
Theorem seed_merges_input_over_stored (stored input : list (string * json)) :
  NoDup (map fst input) ->
  exists seeded,
    RunWorkflow.seed (JObj stored) (VJson (JObj input)) = Return (JObj seeded) /\
    (forall k, k <> "__proto__" ->
               Json.lookup k seeded =
               match Json.lookup k input with
               | Some v => Some v
               | None => Json.lookup k stored
               end) /\
    Json.lookup "__proto__" seeded =
    match Json.lookup "__proto__" stored, Json.lookup "__proto__" input with
    | Some _, Some v => Some v
    | own, _ => own
    end.
Proof.
  intros Hnd. exists (fold_left SeedFacts.assign input stored).
  split; [apply SeedFacts.seed_object|]. split.
  - intros k Hk. rewrite (SeedFacts.lookup_fold_assign k input stored Hnd).
    unfold SeedFacts.writable.
    destruct (String.eqb_spec k "__proto__") as [E|_]; [contradiction|]. reflexivity.
  - rewrite (SeedFacts.lookup_fold_assign "__proto__" input stored Hnd).
    unfold SeedFacts.writable, Prop_.has. rewrite String.eqb_refl. cbn [negb orb].
    destruct (Json.lookup "__proto__" stored), (Json.lookup "__proto__" input);
      reflexivity.
Qed.

Lemma seed_merges_witness :
  RunWorkflow.seed (JObj [("topic", JStr "tea"); ("tone", JStr "plain")])
                   (VJson (JObj [("topic", JStr "coffee"); ("__proto__", JStr "x")]))
  = Return (JObj [("topic", JStr "coffee"); ("tone", JStr "plain")]).
Proof.
  destruct (seed_merges_input_over_stored
              [("topic", JStr "tea"); ("tone", JStr "plain")]
              [("topic", JStr "coffee"); ("__proto__", JStr "x")]) as (res & E & _).
  - repeat constructor; cbn; intuition discriminate.
  - reflexivity.
Defined.


(** Stored variables that are an array take an input key only as an
    index or as [length]: every other key is set on the array object
    and never shows in what the engine is sent. *)
Theorem seed_of_array_drops_named_keys (xs : list json) (input : list (string * json)) :
  (forall k, In k (map fst input) ->
             Prop_.array_index k = None /\ k <> "length") ->
  RunWorkflow.seed (JArr xs) (VJson (JObj input)) = Return (JArr xs).
Proof.
  unfold RunWorkflow.seed. cbn [Prop_.own_enumerable].
  generalize (VJson (JObj input)) as whole.
  induction input as [|[k v] input IH]; intros whole H; [reflexivity|].
  cbn [RunWorkflow.populate].
  destruct (H k (or_introl eq_refl)) as [Hi Hl].
  assert (E : Prop_.set_property (JArr xs) k v = Return (JArr xs)).
  { cbn [Prop_.set_property]. rewrite Hi.
    destruct (String.eqb_spec k "length"); [contradiction | reflexivity]. }
  rewrite E.
  destruct (Prop_.hasOwnProperty whole k); apply IH; intros k' Hk'; apply H; now right.
Qed.

Lemma seed_of_array_witness :
  RunWorkflow.seed (JArr []) (VJson (JObj [("topic", JStr "coffee")]))
  = Return (JArr []).
Proof.
  apply seed_of_array_drops_named_keys.
  intros k [<- | []]. split; [reflexivity | discriminate].
Defined.

(** * The run handler, end to end *)

Module RunOutcomes.


End RunOutcomes.


(** * Reading a task *)

Module ReadFacts.


End ReadFacts.


(** * The notifying version of the callback handler *)

Module NotifyRun.
Import Prisma.

Section Handler.
Variable accepts : Task.t -> bool.

(** An attempt that throws has not called [fetch]. *)
Lemma attempt_throw_replies i l o s w e :
  out (CallbackNotify.attempt accepts i l o s w) = Throw e ->
  replies (final (CallbackNotify.attempt accepts i l o s w)) = replies w.
Proof.
  unfold CallbackNotify.attempt.
  pose proof (PrismaFacts.task_update_spec accepts i s (Js.JSON_stringify l)
                (Js.JSON_stringify o) w) as H.
  cbv zeta in H. destruct H as (_ & _ & _ & Hr & _).
  rewrite bind_run.
  destruct (task_update accepts i s (Js.JSON_stringify l)
              (Js.JSON_stringify o) w) as [[t'|e'] w1 ev]; cbn [out final events] in *;
    [|intros _; exact Hr].
  unfold Rt.JSON_parse.
  destruct (Json.parse (Task.logs t')) as [lj|];
    [rewrite bind_ret | rewrite bind_throw; intros _; exact Hr].
  destruct (Json.parse (Task.output t')) as [oj|];
    [rewrite bind_ret | rewrite bind_throw; intros _; exact Hr].
  rewrite bind_run.
  destruct (Js.truthy (VJson (opt_json (Task.callback t')))).
  - rewrite (bind_run (CallbackNotify.fireCallback _ _ _ _)), Outbound.fireCallback_post_json.
    pose proof (Outbound.post_json_spec
                  (match Task.callback t' with Some u => u | None => "" end)
                  "Failed to make callback call" (task_object t' lj oj) w1) as HP.
    cbv zeta in HP. destruct HP as (_ & _ & _ & _ & _ & Pout).
    destruct (Outbound.post_json _ _ _ None None w1) as [ov w2 ev2];
      cbn [out final events] in *.
    assert (Hov : exists v, ov = Return v).
    { destruct (Outbound.delivered w1);
        [destruct Pout as [-> _] | destruct Pout as (x & -> & _)]; eauto. }
    destruct Hov as (v & ->). cbn. discriminate.
  - cbn. discriminate.
Qed.

(** A run of the handler: no answer (the body could not be
    destructured), the 500 of the loop, or the events of the one
    attempt that returned, after failed attempts that called neither
    [fetch] nor [res]. *)
Lemma handler_run req w :
  let r := CallbackNotify.handler accepts req w in
  (events r = [] /\ tasks (final r) = tasks w) \/
  (responses (events r) = [Loop.gave_up] /\ posts (events r) = []) \/
  (exists i l o s w' pre,
      fields_of (body req) i l o s /\
      replies w' = replies w /\
      out (CallbackNotify.attempt accepts i l o s w') = Return tt /\
      final r = final (CallbackNotify.attempt accepts i l o s w') /\
      events r = (pre ++ events (CallbackNotify.attempt accepts i l o s w'))%list /\
      posts pre = [] /\ responses pre = []).
Proof.
  intros r. subst r.
  destruct (NotifyHandler.notify_handler_cases accepts req w)
    as [(_ & e & ->) | (i & l & o & s & Hfields & ->)]; [left; auto|].
  right.
  destruct (Keep.retry_outcome_inv (fun w' => replies w' = replies w) 5
              (CallbackNotify.attempt accepts i l o s)
              (NotifyFacts.notify_attempt_one_try accepts i l o s)
              (fun w' e => NotifyHandler.attempt_throw_quiet accepts i l o s w' e))
    with (w := w) as [H | (w' & pre & Hrep & Hout & Hfin & Hev & Hp & Hr)].
  - intros w' e Hw' Hthrow. rewrite <- Hw'. now apply (attempt_throw_replies i l o s w' e).
  - reflexivity.
  - left. exact H.
  - right. exists i, l, o, s, w', pre. auto 10.
Qed.

End Handler.
End NotifyRun.




(** * Deliveries that cannot succeed *)

Module NoWay.
Import Prisma.

(** A loop none of whose attempts can return, on a table [ts] they
    leave alone: [n] attempts, [n] delays, the 500. *)
Lemma retry_never_returns (ts : list Task.t) n (attempt : M unit) :
  (forall w, Loop.one_try (attempt w)) ->
  (forall w, tasks w = ts ->
             exists e, out (attempt w) = Throw e /\ tasks (final (attempt w)) = ts /\
                       posts (events (attempt w)) = []) ->
  forall w, tasks w = ts ->
            let r := retry n attempt w in
            responses (events r) = [Loop.gave_up] /\
            timeline (events r) = schedule n false /\
            posts (events r) = [] /\ tasks (final r) = ts.
Proof.
  intros Hone Hfail. induction n as [|n IH]; intros w Hw; cbv zeta.
  - cbn. auto.
  - rewrite Loop.retry_S.
    destruct (Hfail w Hw) as (e & Ho & Ht & Hp). rewrite Ho. cbn [out final events].
    destruct (Hone w) as (Htl & [(b & Hb & _) | (e' & _ & Hr)]); [congruence|].
    destruct (IH (final (attempt w)) Ht) as (R1 & R2 & R3 & R4).
    rewrite responses_app, timeline_app, posts_app, Hr, Htl, Hp.
    cbn [app responses timeline posts schedule]. rewrite R1, R2, R3. auto.
Qed.

Lemma get_prop_not_nullish b key v : Rt.get_prop b key = Return v -> ~ nullish b.
Proof. intros H [-> | ->]; discriminate. Qed.

End NoWay.

(** A delivery to the update version or to the notifying version for
    a task that is not in the table (no row of that id, or an id that
    is no string) cannot succeed, and is not told apart from a
    passing fault: five attempts two seconds apart, then the 500.  The
    table is as it was and no callback is posted. *)
Theorem delivery_for_absent_task_gives_up
        (accepts : Task.t -> bool) (req : request) (w : world) (i : value) :
  Rt.get_prop (body req) "id" = Return i ->
  (forall k, Prisma.string_arg i = Prisma.Given k ->
             Prisma.find_task k (tasks w) = None) ->
  let r := CallbackTask.handler accepts req w in
  let r' := CallbackNotify.handler accepts req w in
  (responses (events r) = [Loop.gave_up] /\
   timeline (events r) = schedule 5 false /\ tasks (final r) = tasks w) /\
  (responses (events r') = [Loop.gave_up] /\
   timeline (events r') = schedule 5 false /\ tasks (final r') = tasks w /\
   posts (events r') = []).
Proof.
  intros Hi Habsent r r'. split.
  - subst r.
    destruct (UpdateHandler.update_handler_cases accepts req w)
      as [(Hn & _) | (i' & l & o & s & (Hi' & _) & ->)];
      [now apply NoWay.get_prop_not_nullish in Hi|].
    rewrite Hi in Hi'. injection Hi' as <-.
    destruct (NoWay.retry_never_returns (tasks w) 5 (CallbackTask.attempt accepts i l o))
      with (w := w) as (R1 & R2 & _ & R4); auto.
    + intros w'. apply UpdateFacts.update_attempt_one_try.
    + intros w' Hw'.
      destruct (UpdateFacts.update_attempt_spec accepts i l o w')
        as (_ & _ & _ & [(e & Ho & Ht & Hev) | (k & t & Hk & Hf & _)]).
      * exists e. rewrite Hev, Ht. auto.
      * rewrite Hw', (Habsent k Hk) in Hf. discriminate.
  - subst r'.
    destruct (NotifyHandler.notify_handler_cases accepts req w)
      as [(Hn & _) | (i' & l & o & s & (Hi' & _) & ->)];
      [now apply NoWay.get_prop_not_nullish in Hi|].
    rewrite Hi in Hi'. injection Hi' as <-.
    destruct (NoWay.retry_never_returns (tasks w) 5
                (CallbackNotify.attempt accepts i l o s))
      with (w := w) as (R1 & R2 & R3 & R4); auto.
    + intros w'. apply NotifyFacts.notify_attempt_one_try.
    + intros w' Hw'.
      destruct (NotifyFacts.notify_attempt_spec accepts i l o s w')
        as (_ & _ & [(e & Ho & Ht & Hev) | (k & t & Hk & Hf & _)]).
      * exists e. rewrite Hev, Ht. auto.
      * rewrite Hw', (Habsent k Hk) in Hf. discriminate.
Qed.

Lemma delivery_for_absent_task_witness :
  responses (events (CallbackNotify.handler Prisma.schema_accepts sample_delivery
                                            empty_world)) = [Loop.gave_up] /\
  timeline (events (CallbackNotify.handler Prisma.schema_accepts sample_delivery
                                           empty_world))
  = [Attempt; Delay 2000; Attempt; Delay 2000; Attempt; Delay 2000;
     Attempt; Delay 2000; Attempt; Delay 2000].
Proof.
  destruct (delivery_for_absent_task_gives_up
              Prisma.schema_accepts sample_delivery empty_world (Js.str "t1"))
    as (_ & R1 & R2 & _).
  - reflexivity.
  - intros k _. reflexivity.
  - split; [exact R1 | exact R2].
Defined.

(** * A delivery, read back *)



(** * The upsert version and an [output] it cannot read *)




(** * The agent routes

    ** More of the Prisma client: the [Agent] table

    model Agent: [id] the key, [name] unique, [description] optional,
    [variables] and [workflow] required strings; the tasks of an agent
    go with it ([onDelete: Cascade]). *)

Module PrismaAgent.
Import Prisma.

Definition set_agents (rows : list Agent.t) : M unit :=
  fun w => mkResult (Return tt)
             (mkWorld (tasks w) rows (faults w) (replies w) (cuid w)) [].

(** An optional string argument: [undefined] and [null] leave the
    column empty. *)
Definition nullable_arg (v : value) : option (option string) :=
  match v with
  | VUndefined | VJson JNull => Some None
  | VJson (JStr s) => Some (Some s)
  | _ => None
  end.

Definition taken (a : Agent.t) (rows : list Agent.t) : bool :=
  existsb (fun x => String.eqb (Agent.id x) (Agent.id a)
                    || String.eqb (Agent.name x) (Agent.name a)) rows.

(** The row [create({ data })] would insert. *)
Definition new_agent (fresh : string) (d_id d_name d_description d_variables d_workflow : value)
  : option Agent.t :=
  match string_arg d_id, string_arg d_name, nullable_arg d_description,
        string_arg d_variables, string_arg d_workflow with
  | Invalid, _, _, _, _ => None
  | i, Given n, Some d, Given vs, Given wf => Some (Agent.mk (or_keep i fresh) n d vs wf)
  | _, _, _, _, _ => None
  end.

(** prisma.agent.create({ data: { id, name, description, variables, workflow } }) *)
Definition agent_create (d_id d_name d_description d_variables d_workflow : value)
  : M Agent.t :=
  connect "agent" "create" ;;
  rows <- Eff.gets agents ;;
  fresh <- Eff.gets cuid ;;
  match new_agent fresh d_id d_name d_description d_variables d_workflow with
  | Some a =>
      if taken a rows then Eff.throw unique_error
      else set_agents (rows ++ [a])%list ;; Eff.ret a
  | None => Eff.throw validation_error
  end.

(** prisma.agent.findMany() *)
Definition agent_findMany : M (list Agent.t) :=
  connect "agent" "findMany" ;; Eff.gets agents.

Definition remove_agent (i : string) (rows : list Agent.t) : list Agent.t :=
  filter (fun a => negb (String.eqb (Agent.id a) i)) rows.

(** The tasks that stay when agent [i] goes. *)
Definition orphaned (i : string) (t : Task.t) : bool :=
  match Task.agentId t with
  | Some a => String.eqb a i
  | None => false
  end.

Definition cascade (i : string) (ts : list Task.t) : list Task.t :=
  filter (fun t => negb (orphaned i t)) ts.

(** prisma.agent.delete({ where: { id } }) *)
Definition agent_delete (where_id : value) : M Agent.t :=
  connect "agent" "delete" ;;
  match string_arg where_id with
  | Given i =>
      rows <- Eff.gets agents ;;
      match find_agent i rows with
      | Some a =>
          ts <- Eff.gets tasks ;;
          set_agents (remove_agent i rows) ;;
          set_tasks (cascade i ts) ;;
          Eff.ret a
      | None => Eff.throw not_found_error
      end
  | _ => Eff.throw validation_error
  end.

(** The row after [update({ data: { name, description, variables, workflow } })]. *)
Definition patch_agent (a : Agent.t) (n : arg) (d : option (option string))
           (vs wf : arg) : Agent.t :=
  Agent.mk (Agent.id a) (or_keep n (Agent.name a))
           (match d with Some x => x | None => Agent.description a end)
           (or_keep vs (Agent.variables a)) (or_keep wf (Agent.workflow a)).

Definition replace_agent (a' : Agent.t) (rows : list Agent.t) : list Agent.t :=
  map (fun a => if String.eqb (Agent.id a) (Agent.id a') then a' else a) rows.

(** prisma.agent.update({ where: { id }, data: { name, description,
    variables, workflow } }) *)
Definition agent_update (where_id d_name d_description d_variables d_workflow : value)
  : M Agent.t :=
  connect "agent" "update" ;;
  match string_arg where_id with
  | Given i =>
      let n := string_arg d_name in
      let vs := string_arg d_variables in
      let wf := string_arg d_workflow in
      match nullable_arg d_description with
      | Some d =>
          if is_invalid n || is_invalid vs || is_invalid wf
          then Eff.throw validation_error
          else
            rows <- Eff.gets agents ;;
            match find_agent i rows with
            | Some a =>
                let a' := patch_agent a n (match d_description with
                                           | VUndefined => None
                                           | _ => Some d
                                           end) vs wf in
                if existsb (fun x => negb (String.eqb (Agent.id x) i)
                                     && String.eqb (Agent.name x) (Agent.name a')) rows
                then Eff.throw unique_error
                else set_agents (replace_agent a' rows) ;; Eff.ret a'
            | None => Eff.throw not_found_error
            end
      | None => Eff.throw validation_error
      end
  | _ => Eff.throw validation_error
  end.

End PrismaAgent.

(** [a || b] *)
Definition js_or (a b : value) : value := if Js.truthy a then a else b.

(** An agent row as [res.json] writes it, and the same with its two
    JSON columns parsed. *)
Definition agent_object (a : Agent.t) (variables workflow : json) : json :=
  JObj [("id", JStr (Agent.id a)); ("name", JStr (Agent.name a));
        ("description", opt_json (Agent.description a));
        ("variables", variables); ("workflow", workflow)].

Definition agent_row (a : Agent.t) : json :=
  agent_object a (JStr (Agent.variables a)) (JStr (Agent.workflow a)).

(** A name the module never declares: reading it throws. *)
Definition unbound {A} (name : string) : M A :=
  Eff.throw (Js.error "ReferenceError" (name ++ " is not defined")).

(** ** src/frontend/pages/api/v1/agent/index.js, first document:
    the list of agents and the creation of one.

    [handlePrismaError] is imported from utils/server/prisma, which is
    not among the sources: it is a parameter, from the error caught to
    the status and the message of the answer. *)
Module AgentIndex.
Section Handler.
Variable handlePrismaError : value -> Z * value.

Definition post (req : request) : M unit :=
  id <- Eff.lift (Rt.get_prop (body req) "id") ;;
  name <- Eff.lift (Rt.get_prop (body req) "name") ;;
  description <- Eff.lift (Rt.get_prop (body req) "description") ;;
  variables <- Eff.lift (Rt.get_prop (body req) "variables") ;;
  workflow <- Eff.lift (Rt.get_prop (body req) "workflow") ;;
  if negb (Js.truthy id) || negb (Js.truthy name)
     || negb (Js.truthy description) || negb (Js.truthy workflow)
  then Rt.respond 400 (Message (Js.str "Missing required body args"))
  else
    Eff.try_catch
      (agent <- PrismaAgent.agent_create id name description
                  (Js.JSON_stringify (js_or variables (Js.str "[]")))
                  (Js.JSON_stringify workflow) ;;
       variables' <- Rt.JSON_parse (Agent.variables agent) ;;
       workflow' <- Rt.JSON_parse (Agent.workflow agent) ;;
       Rt.respond 201 (Body (VJson (agent_object agent variables' workflow'))))
      (fun error =>
         let errorRes := handlePrismaError error in
         Rt.respond (fst errorRes) (Message (snd errorRes))).

Definition handler (method : string) (req : request) : M unit :=
  if String.eqb method "GET" then
    agents <- PrismaAgent.agent_findMany ;;
    Rt.respond 200 (Body (VJson (JArr (map agent_row agents))))
  else if String.eqb method "POST" then post req
  else Rt.respond 400 (Message (Js.str "Method not allowed")).

End Handler.
End AgentIndex.

(** ** src/frontend/pages/api/v1/task/[taskId]/index.js, second
    document: one agent, read, updated or deleted.

    [post] reads [name], [description], [workflow] and [variables],
    and the [catch] blocks of [post] and [handleDelete] read
    [errorRes]: names the module does not declare. *)
Module AgentItem.
Section Handler.
Variable handlePrismaError : value -> Z * value.

Definition get (req : request) : M unit :=
  let agentId := query_param req "agentId" in
  Eff.try_catch
    (agent <- Prisma.agent_findUnique agentId ;;
     match agent with
     | None => Rt.respond 404 (Body (VJson JNull))
     | Some a => Rt.respond 200 (Body (VJson (agent_row a)))
     end)
    (fun error =>
       let errorRes := handlePrismaError error in
       Rt.respond (fst errorRes) (Message (snd errorRes))).

Definition post (req : request) : M unit :=
  let agentId := query_param req "agentId" in
  missing <- (name <- unbound "name" ;;
              if negb (Js.truthy name) then Eff.ret true else
              description <- unbound "description" ;;
              if negb (Js.truthy description) then Eff.ret true else
              workflow <- unbound "workflow" ;;
              Eff.ret (negb (Js.truthy workflow))) ;;
  if (missing : bool)
  then Rt.respond 400 (Message (Js.str "Missing required body args"))
  else
    Eff.try_catch
      (name <- unbound "name" ;;
       description <- unbound "description" ;;
       variables <- unbound "variables" ;;
       workflow <- unbound "workflow" ;;
       agent <- PrismaAgent.agent_update agentId name description
                  (Js.JSON_stringify (js_or variables (Js.str "[]")))
                  (Js.JSON_stringify workflow) ;;
       Rt.respond 201 (Body (VJson (agent_row agent))))
      (fun error =>
         errorRes <- unbound (A := Z * value) "errorRes" ;;
         Rt.respond (fst errorRes) (Message (snd errorRes))).

Definition handleDelete (req : request) : M unit :=
  let agentId := query_param req "agentId" in
  Eff.try_catch
    (agent <- PrismaAgent.agent_delete agentId ;;
     Rt.respond 201 (Body (VJson (agent_row agent))))
    (fun error =>
       errorRes <- unbound (A := Z * value) "errorRes" ;;
       Rt.respond (fst errorRes) (Message (snd errorRes))).

Definition handler (method : string) (req : request) : M unit :=
  if String.eqb method "GET" then get req
  else if String.eqb method "POST" then post req
  else if String.eqb method "DELETE" then handleDelete req
  else Rt.respond 400 (Message (Js.str "Method not allowed")).

End Handler.
End AgentItem.

(** ** src/unnamed/part_007, second and third documents: the run
    handler before it recorded the task *)

(** The version that takes the whole body for input and sends the
    stored variables as they are. *)
Module RunStored.
Section Handler.
Variable ENGINE_BASE_ENDPOINT : string.

Definition handler (req : request) : M unit :=
  let agentId := query_param req "agentId" in
  let input := body req in
  agent <- Prisma.agent_findUnique agentId ;;
  match agent with
  | None => Rt.respond 404 (Message (Js.str "Agent not found"))
  | Some agent =>
      variables <- Rt.JSON_parse (Agent.variables agent) ;;
      workflow <- Rt.JSON_parse (Agent.workflow agent) ;;
      response <- RunWorkflow.runAgent ENGINE_BASE_ENDPOINT
                    (RunWorkflow.workflowAgent agent variables workflow) None None ;;
      if Js.instanceof_Error response then
        Rt.respond 500 (Message response)
      else Rt.respond 201 (Body response)
  end.

End Handler.
End RunStored.

(** The version that seeds the variables from [req.body.input]. *)
Module RunSeeded.
Section Handler.
Variable ENGINE_BASE_ENDPOINT : string.

Definition handler (req : request) : M unit :=
  let agentId := query_param req "agentId" in
  input <- Eff.lift (Rt.get_prop (body req) "input") ;;
  agent <- Prisma.agent_findUnique agentId ;;
  match agent with
  | None => Rt.respond 404 (Message (Js.str "Agent not found"))
  | Some agent =>
      variables <- Rt.JSON_parse (Agent.variables agent) ;;
      workflow <- Rt.JSON_parse (Agent.workflow agent) ;;
      variables' <- Eff.lift (RunWorkflow.seed variables input) ;;
      response <- RunWorkflow.runAgent ENGINE_BASE_ENDPOINT
                    (RunWorkflow.workflowAgent agent variables' workflow) None None ;;
      if Js.instanceof_Error response then
        Rt.respond 500 (Message response)
      else Rt.respond 201 (Body response)
  end.

End Handler.
End RunSeeded.

(** ** The Prisma calls on the [Agent] table, one by one *)

Module AgentFacts.
Import Prisma PrismaAgent PrismaFacts.

Ltac step_agents :=
  cbv [Eff.bind Eff.ret Eff.throw Eff.try_catch Eff.gets Eff.emit Eff.lift
       set_tasks set_agents Rt.respond];
  cbn [out final events tasks agents faults replies cuid].




Lemma agent_delete_spec i w :
  let r := agent_delete i w in
  events r = [Query "agent" "delete"] /\
  cuid (final r) = cuid w /\ replies (final r) = replies w /\
  ((exists e, out r = Throw e /\ agents (final r) = agents w /\
              tasks (final r) = tasks w) \/
   (exists k a,
       string_arg i = Given k /\ find_agent k (agents w) = Some a /\
       out r = Return a /\
       agents (final r) = remove_agent k (agents w) /\
       tasks (final r) = cascade k (tasks w))).
Proof.
  unfold agent_delete.
  destruct (connect_spec "agent" "delete" w) as (Hev & (Ht & Ha & Hc) & Hr & Ho).
  step_agents. destruct (connect "agent" "delete" w) as [o w1 ev]; cbn in *. subst ev.
  destruct Ho as [-> | ->]; cbn; [| eauto 10].
  destruct (string_arg i) as [|k|]; cbn; eauto 10.
  rewrite Ha. destruct (find_agent k (agents w)) as [a|] eqn:Hf; cbn; [|eauto 10].
  rewrite Ht. repeat split; auto. right. exists k, a. auto.
Qed.


Lemma find_agent_id k rows a : find_agent k rows = Some a -> Agent.id a = k.
Proof.
  induction rows as [|x rows IH]; simpl; [discriminate|].
  destruct (String.eqb_spec (Agent.id x) k); [now intros [= <-] | exact IH].
Qed.





End AgentFacts.

(** ** Creating an agent *)

Module CreateFacts.
Import Prisma PrismaAgent AgentFacts.

Lemma get_prop_total b key v key' :
  Rt.get_prop b key = Return v -> exists v', Rt.get_prop b key' = Return v'.
Proof.
  destruct b as [| [| x | n | s | xs | fs] | e | s]; cbn; try discriminate; intros _;
    try (eexists; reflexivity).
  - destruct (Json.lookup key' fs); eexists; reflexivity.
  - destruct (Json.lookup key' (Js.error_fields e)); eexists; reflexivity.
Qed.

Section Handler.
Variable handlePrismaError : value -> Z * value.

(** The body of [post] once the five fields are read. *)
Definition create (id name description variables workflow : value) : M unit :=
  if negb (Js.truthy id) || negb (Js.truthy name)
     || negb (Js.truthy description) || negb (Js.truthy workflow)
  then Rt.respond 400 (Message (Js.str "Missing required body args"))
  else
    Eff.try_catch
      (agent <- agent_create id name description
                  (Js.JSON_stringify (js_or variables (Js.str "[]")))
                  (Js.JSON_stringify workflow) ;;
       variables' <- Rt.JSON_parse (Agent.variables agent) ;;
       workflow' <- Rt.JSON_parse (Agent.workflow agent) ;;
       Rt.respond 201 (Body (VJson (agent_object agent variables' workflow'))))
      (fun error =>
         let errorRes := handlePrismaError error in
         Rt.respond (fst errorRes) (Message (snd errorRes))).

Lemma post_cases req w :
  (nullish (body req) /\
   exists e, AgentIndex.post handlePrismaError req w = mkResult (Throw e) w []) \/
  (exists i n d v wf,
      Rt.get_prop (body req) "id" = Return i /\
      Rt.get_prop (body req) "name" = Return n /\
      Rt.get_prop (body req) "description" = Return d /\
      Rt.get_prop (body req) "variables" = Return v /\
      Rt.get_prop (body req) "workflow" = Return wf /\
      AgentIndex.post handlePrismaError req w = create i n d v wf w).
Proof.
  unfold AgentIndex.post.
  destruct (Rt.get_prop (body req) "id") as [i|e] eqn:Hi.
  - destruct (get_prop_total _ _ _ "name" Hi) as (n & Hn).
    destruct (get_prop_total _ _ _ "description" Hi) as (d & Hd).
    destruct (get_prop_total _ _ _ "variables" Hi) as (v & Hv).
    destruct (get_prop_total _ _ _ "workflow" Hi) as (wf & Hwf).
    right. exists i, n, d, v, wf. rewrite Hn, Hd, Hv, Hwf.
    rewrite !bind_lift_return. auto 10.
  - left. rewrite bind_lift_throw. split; [|eauto].
    destruct (body req) as [| [| x | n | s | xs | fs] | e' | s]; cbn in Hi;
      try discriminate; try (now left); try (now right).
    + destruct (Json.lookup "id" fs); discriminate.
    + destruct (Json.lookup "id" (Js.error_fields e')); discriminate.
Qed.



End Handler.
End CreateFacts.



(** ** An agent created, then run *)

Module CreateRun.
Import Prisma PrismaAgent AgentFacts.

Lemma truthy_str s : s <> "" -> Js.truthy (Js.str s) = true.
Proof. intros H. cbn. apply String.eqb_neq in H. now rewrite H. Qed.

(** The row a well-formed request creates. *)
Definition registered (k n d : string) (variables workflow : json) : Agent.t :=
  Agent.mk k n (Some d) (Json.stringify variables) (Json.stringify workflow).

Section Handler.
Variable handlePrismaError : value -> Z * value.


End Handler.

Section Run.
Variable accepts : Task.t -> bool.
Variable endpoint : string.


End Run.


End CreateRun.






(** ** One agent: read, update, delete *)

Module ItemFacts.
Import Prisma PrismaAgent AgentFacts.

Definition not_defined (name : string) : value :=
  Js.error "ReferenceError" (name ++ " is not defined").

Section Handler.
Variable handlePrismaError : value -> Z * value.

Lemma post_throws req w :
  AgentItem.post req w = mkResult (Throw (not_defined "name")) w [].
Proof. reflexivity. Qed.

Lemma handleDelete_spec req w :
  let r := AgentItem.handleDelete req w in
  (exists k a,
      string_arg (query_param req "agentId") = Given k /\
      find_agent k (agents w) = Some a /\
      out r = Return tt /\
      events r = [Query "agent" "delete"; Respond 201 (Body (VJson (agent_row a)))] /\
      agents (final r) = remove_agent k (agents w) /\
      tasks (final r) = cascade k (tasks w)) \/
  (out r = Throw (not_defined "errorRes") /\ events r = [Query "agent" "delete"] /\
   agents (final r) = agents w /\ tasks (final r) = tasks w).
Proof.
  unfold AgentItem.handleDelete, Eff.try_catch. rewrite bind_run.
  pose proof (agent_delete_spec (query_param req "agentId") w) as H.
  cbv zeta in H. destruct H as (Hev & Hc & Hr & Hcase).
  destruct (agent_delete (query_param req "agentId") w) as [o1 w1 ev1];
    cbn [out final events] in *. subst ev1.
  destruct Hcase as [(e & -> & Ha & Ht) | (k & a & Hk & Hf & -> & Ha & Ht)];
    cbn [out final events].
  - right. cbn. auto.
  - left. exists k, a. cbn. auto 10.
Qed.


End Handler.
End ItemFacts.

(** The route of one agent never updates it and has no answer for a
    failure.  A POST throws a [ReferenceError] ([name] is not
    declared) before the database is asked anything, whatever the
    request.  A DELETE either removes the agent and, with it, its
    tasks, and answers 201 with the row; or, the deletion having
    failed (no agent of that id, no id, the database out of reach),
    throws a [ReferenceError] from its [catch] block ([errorRes] is
    not declared), with no answer and both tables as they were. *)
Theorem agent_route_never_updates_nor_reports
        (handlePrismaError : value -> Z * value) (req : request) (w : world) :
  AgentItem.handler handlePrismaError "POST" req w
  = mkResult (Throw (ItemFacts.not_defined "name")) w [] /\
  let r := AgentItem.handler handlePrismaError "DELETE" req w in
  ((exists k a,
       Prisma.string_arg (query_param req "agentId") = Prisma.Given k /\
       Prisma.find_agent k (agents w) = Some a /\
       out r = Return tt /\
       events r = [Query "agent" "delete"; Respond 201 (Body (VJson (agent_row a)))] /\
       agents (final r) = PrismaAgent.remove_agent k (agents w) /\
       tasks (final r) = PrismaAgent.cascade k (tasks w)) \/
   (out r = Throw (ItemFacts.not_defined "errorRes") /\
    events r = [Query "agent" "delete"] /\
    agents (final r) = agents w /\ tasks (final r) = tasks w)) /\
  ((forall k, Prisma.string_arg (query_param req "agentId") = Prisma.Given k ->
              Prisma.find_agent k (agents w) = None) ->
   out r = Throw (ItemFacts.not_defined "errorRes")).
Proof.
  split; [reflexivity|]. cbv zeta.
  change (AgentItem.handler handlePrismaError "DELETE" req w)
    with (AgentItem.handleDelete req w).
  pose proof (ItemFacts.handleDelete_spec req w) as H. cbv zeta in H.
  split; [exact H|].
  intros Habsent.
  destruct H as [(k & a & Hk & Hf & _) | (Ho & _)]; [|exact Ho].
  rewrite (Habsent k Hk) in Hf. discriminate.
Qed.

(** ** The run handler, before and after it recorded the task *)

Module RunVersions.
Import Prisma Outbound.

Section Handler.
Variable accepts : Task.t -> bool.
Variable endpoint : string.





(** The version that records against the version that does not. *)
Definition agree (w : world) (recorded earlier : result unit) : Prop :=
  posts (events recorded) = posts (events earlier) /\
  (responses (events recorded) = responses (events earlier) \/
   responses (events recorded) = []) /\
  tasks (final earlier) = tasks w /\ agents (final earlier) = agents w.








End Handler.
End RunVersions.


(** * What every route keeps *)


Module UnderSchema.
Import Prisma.



End UnderSchema.


(** ** The store the routes share *)

Module Store.
Import Prisma PrismaAgent AgentFacts.





Section Routes.
Variable handlePrismaError : value -> Z * value.


(** *** Lists *)




(** *** The three ways a request can touch the tables *)








(** *** Each route *)








End Routes.
End Store.



(** * The status a delivery brings *)

(** The notifying version writes the delivered [status] with [logs]
    and [output].  Under the schema of the repository a delivery it
    acknowledges has stored that status, one of the enum; a status
    that is not of the enum is refused with every attempt, and the
    delivery ends in the 500 with the table as it was and nothing
    posted. *)
Theorem notifying_delivery_sets_status
        (req : request) (w : world) (k st : string) :
  Rt.get_prop (body req) "id" = Return (Js.str k) ->
  Rt.get_prop (body req) "status" = Return (Js.str st) ->
  let r := CallbackNotify.handler Prisma.schema_accepts req w in
  (Prisma.is_Status st = false ->
   responses (events r) = [Loop.gave_up] /\ timeline (events r) = schedule 5 false /\
   tasks (final r) = tasks w /\ posts (events r) = []) /\
  (forall b, responses (events r) = [(200%Z, b)] ->
             exists t, Prisma.find_task k (tasks (final r)) = Some t /\
                       Task.status t = Some st /\ Prisma.is_Status st = true).
Proof.
  intros Hi Hs r.
  assert (Hacc : forall i l o t,
             Prisma.schema_accepts (NotifyFacts.written i l o (Js.str st) t) = true ->
             Prisma.is_Status st = true).
  { intros i l o t. unfold NotifyFacts.written, Prisma.schema_accepts, Prisma.patch.
    cbn. destruct (Task.agentId t); [auto | discriminate]. }
  split.
  - intros Hbad. subst r.
    destruct (NotifyHandler.notify_handler_cases Prisma.schema_accepts req w)
      as [(Hn & _) | (i' & l & o & s' & (Hi' & _ & _ & Hs') & ->)];
      [now apply NoWay.get_prop_not_nullish in Hi|].
    rewrite Hi in Hi'. rewrite Hs in Hs'. injection Hi' as <-. injection Hs' as <-.
    destruct (NoWay.retry_never_returns (tasks w) 5
                (CallbackNotify.attempt Prisma.schema_accepts (Js.str k) l o (Js.str st)))
      with (w := w) as (R1 & R2 & R3 & R4); auto.
    + intros w'. apply NotifyFacts.notify_attempt_one_try.
    + intros w' Hw'.
      destruct (NotifyFacts.notify_attempt_spec Prisma.schema_accepts
                  (Js.str k) l o (Js.str st) w')
        as (_ & _ & [(e & Ho & Ht & Hev) | (k' & t & _ & _ & _ & Ha & _)]).
      * exists e. rewrite Hev, Ht. auto.
      * apply Hacc in Ha. congruence.
  - intros b Hb.
    destruct (NotifyRun.handler_run Prisma.schema_accepts req w)
      as [[H _] | [[H _] | (i & l & o & s & w' & pre & (Hi' & _ & _ & Hs') & _ & Hout & Hfin & _)]].
    + subst r. rewrite H in Hb. discriminate.
    + subst r. rewrite H in Hb. discriminate.
    + rewrite Hi in Hi'. rewrite Hs in Hs'. injection Hi' as <-. injection Hs' as <-.
      destruct (NotifyFacts.notify_attempt_spec Prisma.schema_accepts
                  (Js.str k) l o (Js.str st) w')
        as (_ & _ & [(e & Ho & _) | (k' & t & Hk & Hf & _ & Ha & Ht & _)]);
        [congruence|].
      cbn in Hk. injection Hk as <-.
      exists (NotifyFacts.written (Js.str k) l o (Js.str st) t).
      subst r. rewrite Hfin, Ht. split; [|split].
      * assert (Eid : Task.id (NotifyFacts.written (Js.str k) l o (Js.str st) t) = k).
        { unfold NotifyFacts.written. rewrite UpdateFacts.patch_id.
          eapply Table.find_task_id; eauto. }
        rewrite <- Eid at 1. eapply Table.find_replace_task. rewrite Eid. exact Hf.
      * reflexivity.
      * eapply Hacc; eauto.
Qed.

Lemma notifying_delivery_witness :
  exists t,
    Prisma.find_task "t1"
      (tasks (final (CallbackNotify.handler Prisma.schema_accepts sample_delivery
                                            live_world))) = Some t /\
    Task.status t = Some "complete".
Proof.
  destruct (notifying_delivery_sets_status sample_delivery live_world "t1" "complete"
              eq_refl eq_refl) as (_ & H).
  destruct (H (Body (VJson (JObj [("id", JStr "t1"); ("agentId", JStr "a1");
                                  ("logs", JArr [JStr "done"]);
                                  ("output", JObj [("answer", JNum 42)]);
                                  ("status", JStr "complete");
                                  ("callback", JNull)]))) eq_refl)
    as (t & Hf & Hst & _).
  exists t. split; assumption.
Defined.

(** ** Agents read, and agents refused *)

Module AgentReads.
Import Prisma PrismaAgent AgentFacts.

Lemma agent_findMany_ok w :
  GetFacts.reachable_db w ->
  agent_findMany w
  = mkResult (Return (agents w))
             (mkWorld (tasks w) (agents w) (tl (faults w)) (replies w) (cuid w))
             [Query "agent" "findMany"].
Proof.
  intros Hdb. unfold agent_findMany.
  rewrite bind_run, (GetFacts.connect_ok _ _ _ Hdb). reflexivity.
Qed.

Lemma agent_findUnique_ok k w :
  GetFacts.reachable_db w ->
  agent_findUnique (Js.str k) w
  = mkResult (Return (find_agent k (agents w)))
             (mkWorld (tasks w) (agents w) (tl (faults w)) (replies w) (cuid w))
             [Query "agent" "findUnique"].
Proof.
  intros Hdb. unfold agent_findUnique.
  rewrite bind_run, (GetFacts.connect_ok _ _ _ Hdb). reflexivity.
Qed.

Lemma agent_create_taken i n d vs wf w a :
  GetFacts.reachable_db w ->
  new_agent (cuid w) i n d vs wf = Some a -> taken a (agents w) = true ->
  agent_create i n d vs wf w
  = mkResult (Throw unique_error)
             (mkWorld (tasks w) (agents w) (tl (faults w)) (replies w) (cuid w))
             [Query "agent" "create"].
Proof.
  intros Hdb Hnew Htk. unfold agent_create.
  rewrite bind_run, (GetFacts.connect_ok _ _ _ Hdb). cbn [out final events].
  step_agents. rewrite Hnew, Htk. reflexivity.
Qed.

End AgentReads.

(** With the database reached, the list of agents answers 200 with
    every row of the table, in order, and the read of one agent
    answers 200 with its row or 404 with [null]; both leave the
    tables as they are, and both give [variables] and [workflow] as
    the JSON text stored, not parsed as the answer to a creation
    gives them. *)
Theorem agent_reads_answer_rows_as_stored
        (handlePrismaError : value -> Z * value) (req : request) (w : world) :
  GetFacts.reachable_db w ->
  let after := mkWorld (tasks w) (agents w) (tl (faults w)) (replies w) (cuid w) in
  AgentIndex.handler handlePrismaError "GET" req w
  = mkResult (Return tt) after
             [Query "agent" "findMany";
              Respond 200 (Body (VJson (JArr (map agent_row (agents w)))))] /\
  (forall k,
      query_param req "agentId" = Js.str k ->
      AgentItem.handler handlePrismaError "GET" req w
      = mkResult (Return tt) after
                 [Query "agent" "findUnique";
                  match Prisma.find_agent k (agents w) with
                  | Some a => Respond 200 (Body (VJson (agent_row a)))
                  | None => Respond 404 (Body (VJson JNull))
                  end]).
Proof.
  intros Hdb after. split.
  - unfold AgentIndex.handler. cbn [String.eqb Ascii.eqb Bool.eqb].
    rewrite bind_run, (AgentReads.agent_findMany_ok w Hdb). reflexivity.
  - intros k Hq. unfold AgentItem.handler. cbn [String.eqb Ascii.eqb Bool.eqb].
    unfold AgentItem.get, Eff.try_catch. rewrite Hq, bind_run.
    rewrite (AgentReads.agent_findUnique_ok k w Hdb). cbn [out final events].
    destruct (Prisma.find_agent k (agents w)); reflexivity.
Qed.

Lemma agent_reads_witness :
  events (AgentItem.handler (fun _ => (500%Z, VUndefined)) "GET"
                            (mkRequest VUndefined [("agentId", JStr "nobody")])
                            run_world)
  = [Query "agent" "findUnique"; Respond 404 (Body (VJson JNull))].
Proof.
  destruct (agent_reads_answer_rows_as_stored
              (fun _ => (500%Z, VUndefined))
              (mkRequest VUndefined [("agentId", JStr "nobody")])
              run_world (or_introl eq_refl)) as (_ & H).
  now rewrite (H "nobody" eq_refl).
Defined.

(** An agent whose id or name is taken is not created: the creation
    reaches the database once, Prisma refuses it, and the answer is
    whatever [handlePrismaError] makes of the unique-constraint error;
    the tables are as they were. *)
Theorem taken_agent_is_refused
        (handlePrismaError : value -> Z * value) (req : request) (w : world)
        (k n d : string) (v : value) (vj wfj : json) :
  Rt.get_prop (body req) "id" = Return (Js.str k) ->
  Rt.get_prop (body req) "name" = Return (Js.str n) ->
  Rt.get_prop (body req) "description" = Return (Js.str d) ->
  Rt.get_prop (body req) "variables" = Return v ->
  Rt.get_prop (body req) "workflow" = Return (VJson wfj) ->
  k <> "" -> n <> "" -> d <> "" -> Js.truthy (VJson wfj) = true ->
  js_or v (Js.str "[]") = VJson vj ->
  GetFacts.reachable_db w ->
  PrismaAgent.taken (CreateRun.registered k n d vj wfj) (agents w) = true ->
  AgentIndex.handler handlePrismaError "POST" req w
  = mkResult (Return tt)
      (mkWorld (tasks w) (agents w) (tl (faults w)) (replies w) (cuid w))
      [Query "agent" "create";
       Respond (fst (handlePrismaError Prisma.unique_error))
               (Message (snd (handlePrismaError Prisma.unique_error)))].
Proof.
  intros Hi Hn Hd Hv Hw Nk Nn Nd Tw Hor Hdb Htk.
  unfold AgentIndex.handler. cbn [String.eqb Ascii.eqb Bool.eqb].
  destruct (CreateFacts.post_cases handlePrismaError req w)
    as [(Hnull & _) | (i' & n' & d' & v' & wf' & Hi' & Hn' & Hd' & Hv' & Hw' & ->)];
    [now apply NoWay.get_prop_not_nullish in Hi|].
  rewrite Hi in Hi'. rewrite Hn in Hn'. rewrite Hd in Hd'.
  rewrite Hv in Hv'. rewrite Hw in Hw'.
  injection Hi' as <-. injection Hn' as <-. injection Hd' as <-.
  injection Hv' as <-. injection Hw' as <-.
  unfold CreateFacts.create.
  rewrite (CreateRun.truthy_str k Nk), (CreateRun.truthy_str n Nn),
    (CreateRun.truthy_str d Nd), Tw.
  cbn [negb orb]. unfold Eff.try_catch. rewrite bind_run, Hor.
  rewrite (AgentReads.agent_create_taken (Js.str k) (Js.str n) (Js.str d)
             (Js.JSON_stringify (VJson vj)) (Js.JSON_stringify (VJson wfj))
             w (CreateRun.registered k n d vj wfj) Hdb eq_refl Htk).
  reflexivity.
Qed.

Lemma taken_agent_witness :
  responses (events (AgentIndex.handler (fun _ => (409%Z, Js.str "taken")) "POST"
                       (mkRequest (VJson (JObj [("id", JStr "a1"); ("name", JStr "other");
                                                ("description", JStr "again");
                                                ("workflow", JArr [JNull])])) [])
                       run_world))
  = [(409%Z, Message (Js.str "taken"))].
Proof.
  rewrite (taken_agent_is_refused
             (fun _ => (409%Z, Js.str "taken"))
             (mkRequest (VJson (JObj [("id", JStr "a1"); ("name", JStr "other");
                                      ("description", JStr "again");
                                      ("workflow", JArr [JNull])])) [])
             run_world "a1" "other" "again" VUndefined (JStr "[]") (JArr [JNull])
             eq_refl eq_refl eq_refl eq_refl eq_refl);
    try discriminate; try reflexivity.
  left; reflexivity.
Defined.

(** When the database cannot be reached, the list of agents has no
    answer: nothing catches the error of [findMany], and the handler
    throws it.  The read of one agent catches it and answers what
    [handlePrismaError] makes of it. *)
Theorem agent_list_has_no_answer_for_a_fault
        (handlePrismaError : value -> Z * value) (req : request) (w : world)
        (later : list bool) :
  faults w = true :: later ->
  let after := mkWorld (tasks w) (agents w) later (replies w) (cuid w) in
  AgentIndex.handler handlePrismaError "GET" req w
  = mkResult (Throw Prisma.connection_error) after [Query "agent" "findMany"] /\
  AgentItem.handler handlePrismaError "GET" req w
  = mkResult (Return tt) after
             [Query "agent" "findUnique";
              Respond (fst (handlePrismaError Prisma.connection_error))
                      (Message (snd (handlePrismaError Prisma.connection_error)))].
Proof.
  intros Hf after.
  assert (Hc : forall model op,
             Prisma.connect model op w
             = mkResult (Throw Prisma.connection_error) after [Query model op]).
  { intros model op. unfold Prisma.connect. now rewrite Hf. }
  split.
  - unfold AgentIndex.handler. cbn [String.eqb Ascii.eqb Bool.eqb].
    unfold PrismaAgent.agent_findMany. rewrite !bind_run, Hc. reflexivity.
  - unfold AgentItem.handler. cbn [String.eqb Ascii.eqb Bool.eqb].
    unfold AgentItem.get, Eff.try_catch, Prisma.agent_findUnique.
    rewrite !bind_run, Hc. reflexivity.
Qed.

Lemma agent_list_fault_witness :
  responses (events (AgentIndex.handler (fun _ => (500%Z, VUndefined)) "GET"
                                        (mkRequest VUndefined []) unreachable_world))
  = [].
Proof.
  now rewrite (proj1 (agent_list_has_no_answer_for_a_fault
                        (fun _ => (500%Z, VUndefined)) (mkRequest VUndefined [])
                        unreachable_world [true; true; true; true] eq_refl)).
Defined.
